(** * WebBorrow: the pyborrow output scraper of [webborrow/app.py]

    A shallow embedding of the text-processing part of the WebBorrow Flask
    application: [strip_ansi], the line-by-line section classifier and row
    mapper [parse_machine_table], the summary extractor [parse_summary],
    and the decision logic of the [/api/machines], [/api/borrow] and
    [/api/free] handlers.

    A Python [str] is a sequence of Unicode code points; it is modelled as
    a [list Z] of code points.  The box-drawing separators of the source
    are written there in their mis-decoded form (for instance the column
    separator is the three code points U+201A U+00EE U+00C7), and they are
    modelled as exactly those code points. *)

From Stdlib Require Import ZArith List Bool Lia String Ascii.
Import ListNotations.

Open Scope Z_scope.

Definition pystr := list Z.

(** ** Basic [str] operations *)

(** An ASCII string literal as a list of code points. *)
Fixpoint s (x : string) : pystr :=
  match x with
  | EmptyString => []
  | String c r => Z.of_nat (nat_of_ascii c) :: s r
  end.

Fixpoint is_prefix (p t : pystr) : bool :=
  match p, t with
  | [], _ => true
  | a :: p', b :: t' => (a =? b) && is_prefix p' t'
  | _ :: _, [] => false
  end.

(** [sub in t] *)
Fixpoint contains (sub t : pystr) : bool :=
  is_prefix sub t ||
  match t with
  | [] => false
  | _ :: t' => contains sub t'
  end.

(** [str.isspace] on one code point (the Unicode White_Space characters
    together with the separators U+001C..U+001F, as CPython has it). *)
Definition py_isspace (c : Z) : bool :=
  ((9 <=? c) && (c <=? 13)) || ((28 <=? c) && (c <=? 32)) ||
  (c =? 133) || (c =? 160) || (c =? 5760) ||
  ((8192 <=? c) && (c <=? 8202)) ||
  (c =? 8232) || (c =? 8233) || (c =? 8239) || (c =? 8287) ||
  (c =? 12288).

Fixpoint dropwhile (f : Z -> bool) (t : pystr) : pystr :=
  match t with
  | [] => []
  | c :: t' => if f c then dropwhile f t' else t
  end.

Fixpoint takewhile (f : Z -> bool) (t : pystr) : pystr :=
  match t with
  | [] => []
  | c :: t' => if f c then c :: takewhile f t' else []
  end.

(** [str.strip()] *)
Definition strip (t : pystr) : pystr :=
  rev (dropwhile py_isspace (rev (dropwhile py_isspace t))).

(** [str.lower()]: the case mapping of the ASCII letters; code points
    outside ASCII are kept as they are.  Beyond ASCII only U+0130 (to
    [i] and U+0307) and U+212A (to [k]) lower to a text with an ASCII
    letter; no keyword the program looks for in a lowered text contains
    [k] or ends in [i], so its keyword tests come out as with the full
    mapping. *)
Definition lower_char (c : Z) : Z :=
  if (65 <=? c) && (c <=? 90) then c + 32 else c.

Definition lower (t : pystr) : pystr := map lower_char t.

(** [t.split(sep)] for a non-empty [sep]: the text is scanned from the
    left; at an occurrence of [sep] the current piece is closed and the
    [length sep - 1] remaining code points of [sep] are skipped. *)
Fixpoint split_go (sep : pystr) (skip : nat) (cur : pystr) (t : pystr)
  : list pystr :=
  match t with
  | [] => [rev cur]
  | c :: t' =>
      match skip with
      | S k => split_go sep k cur t'
      | O =>
          if is_prefix sep t
          then rev cur :: split_go sep (pred (List.length sep)) [] t'
          else split_go sep O (c :: cur) t'
      end
  end.

Definition split (t sep : pystr) : list pystr := split_go sep O [] t.

(** [t.replace(old, new)] for a non-empty [old]. *)
Fixpoint replace_go (old new : pystr) (skip : nat) (t : pystr) : pystr :=
  match t with
  | [] => []
  | c :: t' =>
      match skip with
      | S k => replace_go old new k t'
      | O =>
          if is_prefix old t
          then new ++ replace_go old new (pred (List.length old)) t'
          else c :: replace_go old new O t'
      end
  end.

Definition replace (t old new : pystr) : pystr := replace_go old new O t.

(** [nth i parts ''], i.e. [parts[i] if len(parts) > i else ''] *)
Definition part (parts : list pystr) (i : nat) : pystr := nth i parts [].

(** ** [strip_ansi]: [re.compile(r'\x1b\[[0-9;]*m').sub('', text)] *)

Definition ESC : Z := 27.
Definition LBRACKET : Z := 91.
Definition M_CHAR : Z := 109.

(** The class [[0-9;]] *)
Definition is_sgr_param (c : Z) : bool :=
  ((48 <=? c) && (c <=? 57)) || (c =? 59).

(** Length of the rest of a match after [ESC [], i.e. of [[0-9;]*m]:
    since [m] is not in the class, the greedy star never backtracks. *)
Fixpoint sgr_tail_len (t : pystr) : option nat :=
  match t with
  | [] => None
  | c :: t' =>
      if is_sgr_param c
      then option_map S (sgr_tail_len t')
      else if c =? M_CHAR then Some 1%nat else None
  end.

(** Length of the match of the pattern at the start of [t], if any. *)
Definition sgr_len (t : pystr) : option nat :=
  match t with
  | e :: b :: t' =>
      if (e =? ESC) && (b =? LBRACKET)
      then option_map (fun n => (2 + n)%nat) (sgr_tail_len t')
      else None
  | _ => None
  end.

(** [re.sub] scans left to right; a match is dropped and scanning resumes
    after it, any other code point is copied. *)
Fixpoint strip_ansi_go (skip : nat) (t : pystr) : pystr :=
  match t with
  | [] => []
  | c :: t' =>
      match skip with
      | S k => strip_ansi_go k t'
      | O =>
          match sgr_len t with
          | Some n => strip_ansi_go (pred n) t'
          | None => c :: strip_ansi_go O t'
          end
      end
  end.

Definition strip_ansi (text : pystr) : pystr := strip_ansi_go O text.


(** ** The box-drawing literals of the source (mis-decoded UTF-8) *)

Definition NL : pystr := [10].
(** ['‚îÇ'], the single vertical bar *)
Definition SEP_V : pystr := [8218; 238; 199].
(** ['‚îÄ'], the single horizontal rule *)
Definition SEP_H : pystr := [8218; 238; 196].
(** ['‚îå'], ['‚îî'], ['‚îú'] *)
Definition CORNER_TL : pystr := [8218; 238; 229].
Definition CORNER_BL : pystr := [8218; 238; 238].
Definition TEE_L : pystr := [8218; 238; 250].
(** ['‚ïê'], the double horizontal rule *)
Definition DBL_H : pystr := [8218; 239; 234].
(** ['‚ïë'], the double vertical bar *)
Definition DBL_V : pystr := [8218; 239; 235].

(** ** Machine records *)

Inductive mstate :=
| available | offline | no_ssh | no_cheetah | deployed | borrowed.

(** The dictionary built from one table row, before the state is added;
    [nce_id] is a key of the cluster rows only. *)
Record row := {
  nce_id : option pystr;
  vendor : pystr;
  type : pystr;
  revision : pystr;
  name : pystr;
  baseos_version : pystr;
  status : pystr;
  borrow_uptime : pystr;
  git_branch : pystr;
  last_connection : pystr;
  comment : pystr;
  cluster : option pystr
}.

(** The dictionary once [state] and [borrower] are set ([None] is the
    Python [None]). *)
Record machine := {
  fields : row;
  state : mstate;
  borrower : option pystr
}.

Definition str_eqb (a b : pystr) : bool :=
  if list_eq_dec Z.eq_dec a b then true else false.

Definition is_empty (a : pystr) : bool :=
  match a with [] => true | _ => false end.

(** Lines 169-190: the state from the status text. *)
Definition classify (st : pystr) : mstate * option pystr :=
  let status_lower := lower st in
  if contains (s "available") status_lower then (available, None)
  else if contains (s "no ping") status_lower then (offline, None)
  else if contains (s "no ssh") status_lower then (no_ssh, None)
  else if contains (s "no cheetah") status_lower then (no_cheetah, None)
  else if contains (s "deploy") status_lower
          && negb (contains (s "(") status_lower)
  then (deployed, None)
  else
    let b := strip (replace st (s "(deploy)") []) in
    (borrowed, Some (if is_empty b then st else b)).

(** Lines 126-139 *)
Definition cluster_row (parts : list pystr) (current_cluster : option pystr)
  : row :=
  {| nce_id := Some (part parts 0);
     vendor := part parts 1;
     type := part parts 2;
     revision := part parts 3;
     name := part parts 4;
     baseos_version := part parts 5;
     status := part parts 6;
     borrow_uptime := part parts 7;
     git_branch := part parts 8;
     last_connection := part parts 9;
     comment := part parts 10;
     cluster := current_cluster |}.

(** Lines 143-155 *)
Definition standalone_row (parts : list pystr) : row :=
  {| nce_id := None;
     vendor := part parts 0;
     type := part parts 1;
     revision := part parts 2;
     name := part parts 3;
     baseos_version := part parts 4;
     status := part parts 5;
     borrow_uptime := part parts 6;
     git_branch := part parts 7;
     last_connection := part parts 8;
     comment := part parts 9;
     cluster := None |}.

Definition with_state (r : row) : machine :=
  let (st, b) := classify (status r) in
  {| fields := r; state := st; borrower := b |}.

(** ** The section classifier *)

(** The values of [current_section]: ['standalone'], ['cluster_' + id],
    ['ixia'], ['summary']; [None] is the Python [None]. *)
Inductive section :=
| standalone | cluster_ (id : pystr) | ixia | summary_sec.

Record pstate := {
  current_section : option section;
  current_cluster : option pystr;
  is_cluster_table : bool
}.

Definition init_state : pstate :=
  {| current_section := None; current_cluster := None;
     is_cluster_table := false |}.

(** The Unicode decimal digits (general category Nd, Unicode 14.0, the
    database of CPython 3.11) come in runs of ten consecutive code points
    with the values 0 to 9: these are the first code points of the runs. *)
Definition nd_starts : list Z :=
  [48; 1632; 1776; 1984; 2406; 2534; 2662; 2790; 2918; 3046;
   3174; 3302; 3430; 3558; 3664; 3792; 3872; 4160; 4240; 6112;
   6160; 6470; 6608; 6784; 6800; 6992; 7088; 7232; 7248; 42528;
   43216; 43264; 43472; 43504; 43600; 44016; 65296; 66720; 68912; 69734;
   69872; 69942; 70096; 70384; 70736; 70864; 71248; 71360; 71472; 71904;
   72016; 72784; 73040; 73120; 92768; 92864; 93008; 120782; 120792; 120802;
   120812; 120822; 123200; 123632; 125264; 130032].

Fixpoint decimal_in (starts : list Z) (c : Z) : option Z :=
  match starts with
  | [] => None
  | b :: bs => if (b <=? c) && (c <? b + 10) then Some (c - b)
               else decimal_in bs c
  end.

(** [unicodedata.decimal(c)]: the value of a decimal digit. *)
Definition decimal_value (c : Z) : option Z := decimal_in nd_starts c.

(** [\d] for a [str] pattern, which is [str.isdecimal]: every Unicode
    decimal digit, not only ASCII; [\s] is [py_isspace]. *)
Definition is_digit (c : Z) : bool :=
  match decimal_value c with Some _ => true | None => false end.

(** The match of [Cluster\s+(\d+)] at the start of [t]: group 1.  The
    classes of [\s] and [\d] are disjoint, so the greedy [\s+] and [\d+]
    do not backtrack. *)
Definition cluster_at (t : pystr) : option pystr :=
  if is_prefix (s "Cluster") t then
    let r := skipn 7 t in
    if is_empty (takewhile py_isspace r) then None
    else
      let d := takewhile is_digit (dropwhile py_isspace r) in
      if is_empty d then None else Some d
  else None.

(** [re.search(r'Cluster\s+(\d+)', line)]: the leftmost match. *)
Fixpoint cluster_search (t : pystr) : option pystr :=
  match cluster_at t with
  | Some d => Some d
  | None =>
      match t with
      | [] => None
      | _ :: t' => cluster_search t'
      end
  end.

Definition is_standalone (o : option section) : bool :=
  match o with Some standalone => true | _ => false end.

(** [current_section.startswith('cluster_')] *)
Definition startswith_cluster (o : option section) : bool :=
  match o with Some (cluster_ _) => true | _ => false end.

(** Lines 97-100, with Python's precedence [(A and B) or C]; [C] is only
    evaluated when [current_section] is not [None]. *)
Definition skip_section (o : option section) : bool :=
  let A := negb (is_standalone o) in
  let B := match o with None => true | Some _ => false end in
  let C := negb (startswith_cluster o) in
  if (A && B) || C then
    if negb (is_standalone o) then
      negb (match o with None => false | Some _ => startswith_cluster o end)
    else false
  else false.

(** Line 103: no column separator. *)
Definition no_column_sep (line : pystr) : bool := negb (contains SEP_V line).

(** Line 107: a rule or border line. *)
Definition rule_line (line : pystr) : bool :=
  contains SEP_H line || contains CORNER_TL line ||
  contains CORNER_BL line || contains TEE_L line || contains DBL_H line.

(** Line 111: a repeated column-header row, with Python's precedence
    [A or (B and C and D)]. *)
Definition header_row (line : pystr) : bool :=
  contains (s "wbox_name") line ||
  (contains (s "vendor") line && contains (s "type") line &&
   contains (s "revision") line).

(** Lines 115-116 *)
Definition row_parts (line : pystr) : list pystr :=
  filter (fun p => negb (is_empty p)) (map strip (split line SEP_V)).

(** Lines 102-192 for a line that is not a section header. *)
Definition parse_row (st : pstate) (line : pystr) : option machine :=
  if skip_section (current_section st) then None
  else if no_column_sep line then None
  else if rule_line line then None
  else if header_row line then None
  else
    let parts := row_parts line in
    if (List.length parts <? 6)%nat then None
    else
      let m :=
        if is_cluster_table st && (10 <=? List.length parts)%nat
        then Some (cluster_row parts (current_cluster st))
        else if negb (is_cluster_table st) && (6 <=? List.length parts)%nat
        then Some (standalone_row parts)
        else None in
      match m with
      | None => None
      | Some r =>
          if is_empty (name r) then None
          else if str_eqb (name r) (s "wbox_name") then None
          else if is_empty (name r) && is_empty (vendor r) then None
          else Some (with_state r)
      end.

(** One iteration of the loop of lines 74-192: the next state and the
    record the line appends, if any. *)
Definition step (st : pstate) (line : pystr) : pstate * option machine :=
  if contains (s "Stand alone") line then
    ({| current_section := Some standalone; current_cluster := None;
        is_cluster_table := false |}, None)
  else if contains (s "Cluster") line && negb (contains SEP_H line) then
    match cluster_search line with
    | Some id =>
        ({| current_section := Some (cluster_ id); current_cluster := Some id;
            is_cluster_table := true |}, None)
    | None => (st, None)
    end
  else if contains (s "DP IXIAs") line then
    ({| current_section := Some ixia; current_cluster := current_cluster st;
        is_cluster_table := is_cluster_table st |}, None)
  else if contains (s "Total") line && contains (s "Free") line &&
          contains (s "Taken") line then
    ({| current_section := Some summary_sec;
        current_cluster := current_cluster st;
        is_cluster_table := is_cluster_table st |}, None)
  else (st, parse_row st line).

Fixpoint parse_lines (st : pstate) (lines : list pystr) : list machine :=
  match lines with
  | [] => []
  | line :: rest =>
      let (st', m) := step st line in
      match m with
      | Some r => r :: parse_lines st' rest
      | None => parse_lines st' rest
      end
  end.

Definition parse_machine_table (output : pystr) : list machine :=
  parse_lines init_state (split (strip_ansi output) NL).

(** The state of the loop after the given lines. *)
Definition run_state (lines : list pystr) : pstate :=
  fold_left (fun st line => fst (step st line)) lines init_state.

(** The lines the four tests of lines 76-94 take as section headers. *)
Definition section_header (line : pystr) : bool :=
  contains (s "Stand alone") line ||
  (contains (s "Cluster") line && negb (contains SEP_H line)) ||
  contains (s "DP IXIAs") line ||
  (contains (s "Total") line && contains (s "Free") line &&
   contains (s "Taken") line).

(** ** [parse_summary] *)

(** The digits of [int(p)]: Unicode decimal digits with their values,
    with single underscores allowed between digits. *)
Fixpoint int_digits (acc : Z) (after_digit : bool) (t : pystr) : option Z :=
  match t with
  | [] => if after_digit then Some acc else None
  | c :: t' =>
      match decimal_value c with
      | Some d => int_digits (acc * 10 + d) true t'
      | None =>
          if (c =? 95) && after_digit then int_digits acc false t'
          else None
      end
  end.

(** [sys.int_info.default_max_str_digits]: [int] of a decimal string
    with more digits (underscores not counted) raises [ValueError]. *)
Definition max_str_digits : nat := 4300.

(** [int(p)]; [None] is the [ValueError]. *)
Definition parse_int (p : pystr) : option Z :=
  if (max_str_digits <? List.length (filter is_digit (strip p)))%nat then None
  else
  match strip p with
  | c :: r =>
      if c =? 43 then int_digits 0 false r
      else if c =? 45 then option_map Z.opp (int_digits 0 false r)
      else int_digits 0 false (c :: r)
  | [] => None
  end.

(** [[int(p) for p in parts]]: the first failing conversion raises. *)
Fixpoint parse_ints (parts : list pystr) : option (list Z) :=
  match parts with
  | [] => Some []
  | p :: ps =>
      match parse_int p with
      | None => None
      | Some v =>
          match parse_ints ps with
          | None => None
          | Some vs => Some (v :: vs)
          end
      end
  end.

Record summary := {
  total : Z;
  free : Z;
  taken : Z;
  taken_not_used : Z
}.

Definition zero_summary : summary :=
  {| total := 0; free := 0; taken := 0; taken_not_used := 0 |}.

(** Lines 212-213 *)
Definition summary_parts (line : pystr) : list pystr :=
  filter (fun p => negb (is_empty p)) (map strip (split line DBL_V)).

(** Lines 211-228 for one line: [Some] when it breaks the loop. *)
Definition summary_line (line : pystr) : option summary :=
  if contains DBL_V line && negb (contains DBL_H line) then
    let parts := summary_parts line in
    if (List.length parts =? 4)%nat then
      match parse_ints parts with
      | Some [v0; v1; v2; v3] =>
          if forallb (fun v => 0 <=? v) [v0; v1; v2; v3] && (v1 <=? v0)
          then Some {| total := v0; free := v1; taken := v2;
                       taken_not_used := v3 |}
          else None
      | _ => None
      end
    else None
  else None.

Fixpoint summary_scan (lines : list pystr) : summary :=
  match lines with
  | [] => zero_summary
  | line :: rest =>
      match summary_line line with
      | Some sm => sm
      | None => summary_scan rest
      end
  end.

Definition parse_summary (output : pystr) : summary :=
  summary_scan (split (strip_ansi output) NL).

(** ** The HTTP handlers

    [run_pyborrow] runs the external tool; its result [(stdout, stderr,
    return_code)] is the input of the handlers (a timeout or an exception
    gives [("", message, 1)]). *)

Record tool_result := {
  out : pystr;
  err : pystr;
  code : Z
}.

Inductive machines_response :=
| machines_error (error : pystr)                 (* status 500 *)
| machines_ok (machines : list machine) (sm : summary) (count : nat).

(** [get_machines], lines 240-258 *)
Definition get_machines (r : tool_result) : machines_response :=
  if negb (code r =? 0) && is_empty (out r) then
    machines_error (s "Failed to fetch machines: " ++ err r)
  else
    let machines := parse_machine_table (out r) in
    let sm := parse_summary (out r) in
    machines_ok machines sm (List.length machines).

Record action_response := {
  success : bool;
  message : pystr;
  output : pystr;
  error : option pystr;
  http_status : Z
}.

(** [borrow_machine] and [free_machine] differ in the flag, the keyword
    and the verb of the message; [verb] is [borrowed] or [freed]. *)
Definition action (verb fail_verb : pystr) (machine_name : pystr)
  (r : tool_result) : action_response :=
  let clean_stdout := strip_ansi (out r) in
  let clean_stderr := strip_ansi (err r) in
  if (code r =? 0) || contains verb (lower clean_stdout) then
    {| success := true;
       message := s "Successfully " ++ verb ++ s " " ++ machine_name;
       output := clean_stdout; error := None; http_status := 200 |}
  else
    {| success := false;
       message := s "Failed to " ++ fail_verb ++ s " " ++ machine_name;
       output := clean_stdout; error := Some clean_stderr;
       http_status := 400 |}.

(** The argument list passed to [run_pyborrow] by [borrow_machine]. *)
Definition borrow_args (machine_name : pystr) : list pystr :=
  [s "-b"; machine_name].

Definition free_args (machine_name : pystr) : list pystr :=
  [s "-f"; machine_name].

Definition borrow_machine (machine_name : pystr) (r : tool_result)
  : action_response :=
  action (s "borrowed") (s "borrow") machine_name r.

Definition free_machine (machine_name : pystr) (r : tool_result)
  : action_response :=
  action (s "freed") (s "free") machine_name r.

(** ** Specification-side notions *)

(** A text matched by [\x1b\[[0-9;]*m]. *)
Definition is_sgr (m : pystr) : Prop :=
  exists p, Forall (fun c => is_sgr_param c = true) p /\
            m = ESC :: LBRACKET :: p ++ [M_CHAR].

(** [ansi_removed t o]: [o] is [t] with the pattern's matches removed,
    read from the left: at each position a match is dropped, and a code
    point that starts no match is kept. *)
Inductive ansi_removed : pystr -> pystr -> Prop :=
| ar_nil : ansi_removed [] []
| ar_drop : forall m rest o,
    is_sgr m -> ansi_removed rest o -> ansi_removed (m ++ rest) o
| ar_keep : forall c rest o,
    (forall m r, c :: rest = m ++ r -> ~ is_sgr m) ->
    ansi_removed rest o -> ansi_removed (c :: rest) (c :: o).

(** [t] contains no match of the pattern anywhere. *)
Definition no_sgr (t : pystr) : Prop :=
  forall pre m post, t = pre ++ m ++ post -> ~ is_sgr m.

(** The link between the three variables of the loop: a standalone
    section clears [is_cluster_table], a cluster section sets it and
    records its id as [current_cluster]. *)
Definition section_inv (st : pstate) : Prop :=
  match current_section st with
  | Some standalone => is_cluster_table st = false
  | Some (cluster_ id) =>
      is_cluster_table st = true /\ current_cluster st = Some id
  | _ => True
  end.

(** The status rules as the spec words them: case-insensitive keyword
    tests in priority order. *)
Definition ci_contains (kw t : pystr) : bool := contains kw (lower t).

Definition expected_state (st : pystr) : mstate :=
  if ci_contains (s "available") st then available
  else if ci_contains (s "no ping") st then offline
  else if ci_contains (s "no ssh") st then no_ssh
  else if ci_contains (s "no cheetah") st then no_cheetah
  else if ci_contains (s "deploy") st && negb (contains (s "(") st)
  then deployed
  else borrowed.

(** The status with ["(deploy)"] removed and trimmed, or the raw status
    when that is empty. *)
Definition expected_borrower (st : pystr) : pystr :=
  let b := strip (replace st (s "(deploy)") []) in
  match b with
  | [] => st
  | _ => b
  end.

(** A line [parse_summary] accepts, with the four values it reads. *)
Definition summary_qualifies (line : pystr) (v0 v1 v2 v3 : Z) : Prop :=
  contains DBL_V line = true /\ contains DBL_H line = false /\
  (exists p0 p1 p2 p3,
     summary_parts line = [p0; p1; p2; p3] /\
     parse_int p0 = Some v0 /\ parse_int p1 = Some v1 /\
     parse_int p2 = Some v2 /\ parse_int p3 = Some v3) /\
  0 <= v0 /\ 0 <= v1 /\ 0 <= v2 /\ 0 <= v3 /\ v1 <= v0.

Definition summary_rejects (line : pystr) : Prop :=
  forall v0 v1 v2 v3, ~ summary_qualifies line v0 v1 v2 v3.

(** A decision procedure for [no_sgr]: no suffix starts a match. *)
Fixpoint sgr_free (t : pystr) : bool :=
  match sgr_len t with
  | Some _ => false
  | None => match t with [] => true | _ :: t' => sgr_free t' end
  end.

(** ** The remaining parts of [app.py] *)

(** [sep.join(pieces)] *)
Fixpoint join (sep : pystr) (pieces : list pystr) : pystr :=
  match pieces with
  | [] => []
  | [p] => p
  | p :: ps => p ++ sep ++ join sep ps
  end.

(** [x in args] for a list of strings *)
Definition str_in (x : pystr) (args : list pystr) : bool :=
  existsb (str_eqb x) args.

(** The command line [run_pyborrow] builds (lines 36-42); [None] is the
    default [args=None], and an empty list is falsy like [None]. *)
Definition run_pyborrow_cmd (executable pyborrow_path : pystr)
  (args : option (list pystr)) : list pystr :=
  let a := match args with Some a => a | None => [] end in
  let truthy := match a with [] => false | _ :: _ => true end in
  let cmd := [executable; pyborrow_path] ++ (if truthy then a else []) in
  if truthy && (str_in (s "-b") a || str_in (s "-f") a ||
                str_in (s "--borrow") a || str_in (s "--free") a)
  then cmd ++ [s "-q"]
  else cmd.

(** How the [subprocess.run] call of [run_pyborrow] ends. *)
Inductive proc_outcome :=
| completed (stdout stderr : pystr) (returncode : Z)
| timed_out
| raised (message : pystr).

(** Lines 44-56: the triple [run_pyborrow] returns. *)
Definition run_pyborrow_result (o : proc_outcome) : tool_result :=
  match o with
  | completed so se rc => {| out := so; err := se; code := rc |}
  | timed_out => {| out := []; err := s "Command timed out"; code := 1 |}
  | raised msg => {| out := []; err := msg; code := 1 |}
  end.

Record details_response := {
  d_name : pystr;
  details : pystr;
  d_success : bool
}.

(** [get_machine_details], lines 308-318 *)
Definition get_machine_details (machine_name : pystr) (r : tool_result)
  : details_response :=
  {| d_name := machine_name; details := strip_ansi (out r);
     d_success := code r =? 0 |}.

(** The text fields of a row dictionary. *)
Definition row_texts (r : row) : list pystr :=
  [vendor r; type r; revision r; name r; baseos_version r; status r;
   borrow_uptime r; git_branch r; last_connection r; comment r] ++
  match nce_id r with Some n => [n] | None => [] end.

(** Every cluster id the loop records is a non-empty run of (Unicode
    decimal) digits. *)
Definition cluster_ids_ok (st : pstate) : Prop :=
  forall id, current_cluster st = Some id ->
  id <> [] /\ Forall (fun c => is_digit c = true) id.

(** ** A sample of the tool's output *)

(** A table row: the fields between separators, padded by one space. *)
Definition row_line (sep : pystr) (fs : list string) : pystr :=
  sep ++ List.concat (map (fun f => s " " ++ s f ++ s " " ++ sep) fs).

Definition sample_output : pystr :=
  [ESC] ++ s "[1mStand alone" ++ [ESC] ++ s "[0m" ++ NL ++
  row_line SEP_V ["dell"; "x86"; "r1"; "wb1"; "1.0"; "john (deploy)";
                  "1h"; "main"; "now"; "c"]%string ++ NL ++
  row_line SEP_V ["dell"; "x86"; "r1"; "wb2"; "1.0"; "Available"]%string
  ++ NL ++
  s "Cluster 2" ++ NL ++
  row_line SEP_V ["7"; "dell"; "x86"; "r1"; "wb3"; "1.0"; "(deploy)"; "1h";
                  "main"; "now"]%string ++ NL ++
  row_line SEP_V ["dell"; "x86"; "r1"; "wb4"; "1.0"; "Available"]%string
  ++ NL ++
  s "DP IXIAs" ++ NL ++
  row_line SEP_V ["ix"; "x86"; "r1"; "ix1"; "1.0"; "Available"]%string
  ++ NL ++
  s "Total Free Taken" ++ NL ++
  row_line DBL_V ["3"; "10"; "1"; "1"]%string ++ NL ++
  row_line DBL_V ["10"; "3"; "7"; "2"]%string.

(** An eleven-column row of a cluster table. *)
Definition cluster_row_line : pystr :=
  row_line SEP_V ["7"; "V14"; "x86"; "r1"; "wbD"; "1.0"; "probe"; "1h";
                  "main"; "now"; "c"]%string.

(** * Theorems *)

Section StripAnsi.

Lemma sgr_tail_len_app p r :
  Forall (fun c => is_sgr_param c = true) p ->
  sgr_tail_len (p ++ M_CHAR :: r) = Some (S (List.length p)).
Proof.
  induction 1 as [|a p Ha _ IH]; simpl.
  - reflexivity.
  - rewrite Ha, IH. reflexivity.
Qed.

Lemma sgr_tail_len_some t n :
  sgr_tail_len t = Some n ->
  exists p r, Forall (fun c => is_sgr_param c = true) p /\
              t = p ++ M_CHAR :: r /\ n = S (List.length p).
Proof.
  revert n; induction t as [|c t IH]; intros n H; simpl in H.
  - discriminate.
  - destruct (is_sgr_param c) eqn:Hp.
    + destruct (sgr_tail_len t) as [k|] eqn:Ht; simpl in H; [|discriminate].
      injection H as <-.
      destruct (IH k eq_refl) as (p & r & Hf & -> & ->).
      exists (c :: p), r. repeat split; auto.
    + destruct (c =? M_CHAR) eqn:Hm; [|discriminate].
      apply Z.eqb_eq in Hm; subst c. injection H as <-.
      exists [], t. repeat split; auto.
Qed.

Lemma sgr_len_app m r : is_sgr m -> sgr_len (m ++ r) = Some (List.length m).
Proof.
  intros (p & Hp & ->). simpl.
  rewrite <- app_assoc. simpl.
  rewrite sgr_tail_len_app by exact Hp. simpl.
  rewrite length_app. simpl. f_equal. lia.
Qed.

Lemma sgr_len_some t n :
  sgr_len t = Some n -> exists m r, is_sgr m /\ t = m ++ r /\ n = List.length m.
Proof.
  unfold sgr_len. destruct t as [|e [|b t]]; try discriminate.
  destruct ((e =? ESC) && (b =? LBRACKET)) eqn:HEB; [|discriminate].
  apply andb_true_iff in HEB as [He Hb].
  apply Z.eqb_eq in He; apply Z.eqb_eq in Hb; subst.
  destruct (sgr_tail_len t) as [k|] eqn:Ht; simpl; [|discriminate].
  intros H; injection H as <-.
  destruct (sgr_tail_len_some _ _ Ht) as (p & r & Hf & -> & ->).
  exists (ESC :: LBRACKET :: p ++ [M_CHAR]), r. repeat split.
  - exists p; auto.
  - simpl. rewrite <- app_assoc. reflexivity.
  - simpl. rewrite length_app. simpl. lia.
Qed.

Lemma sgr_len_none t :
  sgr_len t = None -> forall m r, t = m ++ r -> ~ is_sgr m.
Proof.
  intros H m r -> Hm. rewrite sgr_len_app in H by exact Hm. discriminate.
Qed.

Lemma strip_ansi_go_skip k t :
  strip_ansi_go k t = strip_ansi_go O (skipn k t).
Proof.
  revert k; induction t as [|c t IH]; intros [|k]; simpl; auto.
Qed.

Lemma is_sgr_not_nil m : is_sgr m -> exists c m', m = c :: m'.
Proof. intros (p & _ & ->). eauto. Qed.

Lemma strip_ansi_drop m r :
  is_sgr m -> strip_ansi (m ++ r) = strip_ansi r.
Proof.
  intros Hm. unfold strip_ansi.
  destruct (is_sgr_not_nil m Hm) as (c & m' & ->).
  pose proof (sgr_len_app (c :: m') r Hm) as E.
  simpl in E |- *. rewrite E. simpl.
  rewrite strip_ansi_go_skip, skipn_app, skipn_all, Nat.sub_diag.
  reflexivity.
Qed.

Lemma strip_ansi_keep c r :
  sgr_len (c :: r) = None -> strip_ansi (c :: r) = c :: strip_ansi r.
Proof. intros H. unfold strip_ansi. cbn [strip_ansi_go]. rewrite H. reflexivity. Qed.

Lemma ansi_removed_fun t o : ansi_removed t o -> o = strip_ansi t.
Proof.
  induction 1 as [|m rest o Hm _ IH|c rest o Hn _ IH].
  - reflexivity.
  - rewrite strip_ansi_drop by exact Hm. exact IH.
  - rewrite strip_ansi_keep; [congruence|].
    destruct (sgr_len (c :: rest)) as [n|] eqn:E; [|reflexivity].
    destruct (sgr_len_some _ _ E) as (m & r & Hm & Heq & _).
    exfalso. exact (Hn m r Heq Hm).
Qed.

Lemma ansi_removed_strip_ansi t : ansi_removed t (strip_ansi t).
Proof.
  induction t as [t IH] using (well_founded_induction
    (Wf_nat.well_founded_ltof _ (@List.length Z))).
  unfold Wf_nat.ltof in IH.
  destruct t as [|c r].
  - constructor.
  - destruct (sgr_len (c :: r)) as [n|] eqn:E.
    + destruct (sgr_len_some _ _ E) as (m & r' & Hm & Heq & _).
      rewrite Heq, strip_ansi_drop by exact Hm.
      constructor; [exact Hm|]. apply IH.
      destruct (is_sgr_not_nil m Hm) as (c' & m' & ->).
      rewrite Heq. simpl. rewrite length_app. lia.
    + rewrite strip_ansi_keep by exact E.
      constructor.
      * exact (sgr_len_none _ E).
      * apply IH. simpl. lia.
Qed.

Lemma no_sgr_tail c t : no_sgr (c :: t) -> no_sgr t.
Proof.
  intros H pre m post ->. apply (H (c :: pre) m post). reflexivity.
Qed.

Lemma no_sgr_strip_ansi t : no_sgr t -> strip_ansi t = t.
Proof.
  induction t as [|c t IH]; intros H; [reflexivity|].
  rewrite strip_ansi_keep.
  - f_equal. apply IH. exact (no_sgr_tail c t H).
  - destruct (sgr_len (c :: t)) as [n|] eqn:E; [|reflexivity].
    destruct (sgr_len_some _ _ E) as (m & r & Hm & Heq & _).
    exfalso. apply (H [] m r); [exact Heq | exact Hm].
Qed.

End StripAnsi.

(** C5: [strip_ansi] removes exactly the matches of
    [ESC \[ [0-9;]* m], read from the left, and keeps every other code
    point, line breaks included, in order: its output is the one text
    [ansi_removed] relates to the input.  On an input with no such match
    the output is the input. *)
Theorem strip_ansi_removes_exactly_sgr :
  (forall text o, ansi_removed text o <-> o = strip_ansi text) /\
  (forall text, no_sgr text -> strip_ansi text = text).
Proof.
  split.
  - intros text o. split.
    + apply ansi_removed_fun.
    + intros ->. apply ansi_removed_strip_ansi.
  - exact no_sgr_strip_ansi.
Qed.

Section Substrings.

Lemma is_prefix_true p t : is_prefix p t = true <-> exists v, t = p ++ v.
Proof.
  revert t; induction p as [|a p IH]; intros t; simpl.
  - split; eauto.
  - destruct t as [|b t].
    + split; [discriminate|]. intros (v & H); discriminate.
    + rewrite andb_true_iff, Z.eqb_eq, IH. split.
      * intros (-> & v & ->). eauto.
      * intros (v & H). injection H as -> ->. eauto.
Qed.

Lemma contains_true sub t :
  contains sub t = true <-> exists u v, t = u ++ sub ++ v.
Proof.
  induction t as [|c t IH]; simpl; rewrite orb_true_iff, is_prefix_true.
  - split.
    + intros [(v & Hv)|H]; [|discriminate].
      exists [], v. exact Hv.
    + intros (u & v & H). left. exists v.
      destruct u; [exact H|discriminate].
  - rewrite IH. split.
    + intros [(v & Hv)|(u & v & Hv)].
      * exists [], v. exact Hv.
      * exists (c :: u), v. rewrite Hv. reflexivity.
    + intros (u & v & H). destruct u as [|c' u].
      * left. exists v. exact H.
      * right. injection H as -> ->. eauto.
Qed.

Lemma contains_infix sub u v :
  contains sub (u ++ sub ++ v) = true.
Proof. apply contains_true. eauto. Qed.

Lemma dropwhile_suffix f t : exists u, t = u ++ dropwhile f t.
Proof.
  induction t as [|c t (u & Hu)]; simpl.
  - exists []. reflexivity.
  - destruct (f c).
    + exists (c :: u). simpl. congruence.
    + exists []. reflexivity.
Qed.

Lemma strip_infix t : exists u v, t = u ++ strip t ++ v.
Proof.
  unfold strip.
  destruct (dropwhile_suffix py_isspace t) as (u & Hu).
  destruct (dropwhile_suffix py_isspace (rev (dropwhile py_isspace t)))
    as (w & Hw).
  exists u, (rev w).
  rewrite Hu at 1. f_equal.
  rewrite <- (rev_involutive (dropwhile py_isspace t)), Hw at 1.
  rewrite rev_app_distr. reflexivity.
Qed.

Lemma split_go_infix sep t : forall k cur p,
  (k <> O -> cur = []) ->
  In p (split_go sep k cur t) -> exists u v, rev cur ++ t = u ++ p ++ v.
Proof.
  induction t as [|c t IH]; intros k cur p Hk Hin; simpl in Hin.
  - destruct Hin as [<-|[]]. exists [], []. rewrite !app_nil_r. reflexivity.
  - destruct k as [|k].
    + destruct (is_prefix sep (c :: t)).
      * destruct Hin as [<-|Hin].
        -- exists [], (c :: t). reflexivity.
        -- destruct (IH _ [] p (fun _ => eq_refl) Hin) as (u & v & Huv).
           exists (rev cur ++ [c] ++ u), v. simpl in Huv. rewrite Huv.
           rewrite <- !app_assoc. reflexivity.
      * destruct (IH O (c :: cur) p (fun H => ltac:(congruence)) Hin)
          as (u & v & Huv).
        exists u, v. rewrite <- Huv. simpl. rewrite <- app_assoc. reflexivity.
    + rewrite (Hk ltac:(discriminate)) in Hin |- *.
      destruct (IH k [] p (fun _ => eq_refl) Hin) as (u & v & Huv).
      exists (c :: u), v. simpl in Huv |- *. rewrite Huv. reflexivity.
Qed.

Lemma split_infix t sep p :
  In p (split t sep) -> exists u v, t = u ++ p ++ v.
Proof.
  intros H. exact (split_go_infix sep t O [] p (fun H => ltac:(congruence)) H).
Qed.

Lemma parts_infix sep line p :
  In p (filter (fun p => negb (is_empty p)) (map strip (split line sep))) ->
  exists u v, line = u ++ p ++ v.
Proof.
  rewrite filter_In, in_map_iff. intros ((q & <- & Hq) & _).
  destruct (split_infix _ _ _ Hq) as (u & v & ->).
  destruct (strip_infix q) as (u' & v' & Hq').
  exists (u ++ u'), (v' ++ v). rewrite Hq' at 1.
  rewrite <- !app_assoc. reflexivity.
Qed.

Lemma parts_nonempty sep line p :
  In p (filter (fun p => negb (is_empty p)) (map strip (split line sep))) ->
  p <> [].
Proof.
  rewrite filter_In. intros (_ & H) ->. discriminate.
Qed.

Lemma nth_part_nonempty sep line i :
  (i < List.length (filter (fun p => negb (is_empty p))
                     (map strip (split line sep))))%nat ->
  nth i (filter (fun p => negb (is_empty p)) (map strip (split line sep))) []
  <> [].
Proof. intros H. apply (parts_nonempty sep line). apply nth_In. exact H. Qed.

End Substrings.

Section Parser.

Lemma step_snd st line :
  snd (step st line) = if section_header line then None else parse_row st line.
Proof.
  unfold step, section_header.
  destruct (contains (s "Stand alone") line), (contains (s "Cluster") line),
    (contains SEP_H line), (contains (s "DP IXIAs") line),
    (contains (s "Total") line), (contains (s "Free") line),
    (contains (s "Taken") line);
    cbn [orb andb negb fst snd]; try reflexivity;
    destruct (cluster_search line); reflexivity.
Qed.

Lemma step_no_header st line :
  section_header line = false -> step st line = (st, parse_row st line).
Proof.
  unfold step, section_header.
  destruct (contains (s "Stand alone") line), (contains (s "Cluster") line),
    (contains SEP_H line), (contains (s "DP IXIAs") line),
    (contains (s "Total") line), (contains (s "Free") line),
    (contains (s "Taken") line);
    cbn [orb andb negb fst snd]; congruence.
Qed.

Lemma step_inv st line : section_inv st -> section_inv (fst (step st line)).
Proof.
  intros H. unfold step.
  destruct (contains (s "Stand alone") line); [reflexivity|].
  destruct (contains (s "Cluster") line && negb (contains SEP_H line)).
  - destruct (cluster_search line); [split; reflexivity | exact H].
  - destruct (contains (s "DP IXIAs") line); [exact I|].
    destruct (contains (s "Total") line && contains (s "Free") line &&
              contains (s "Taken") line); [exact I | exact H].
Qed.

Lemma fold_step_inv lines : forall st,
  section_inv st ->
  section_inv (fold_left (fun st line => fst (step st line)) lines st).
Proof.
  induction lines as [|l lines IH]; intros st H; simpl; auto using step_inv.
Qed.

Lemma run_state_inv lines : section_inv (run_state lines).
Proof. apply fold_step_inv. exact I. Qed.

Lemma run_state_app l1 l2 :
  run_state (l1 ++ l2) =
  fold_left (fun st line => fst (step st line)) l2 (run_state l1).
Proof. unfold run_state. apply fold_left_app. Qed.

Lemma parse_lines_app l1 : forall st l2,
  parse_lines st (l1 ++ l2) =
  parse_lines st l1 ++
  parse_lines (fold_left (fun st line => fst (step st line)) l1 st) l2.
Proof.
  induction l1 as [|l l1 IH]; intros st l2; simpl; [reflexivity|].
  destruct (step st l) as [st' [m|]]; simpl; rewrite IH; reflexivity.
Qed.

Lemma parse_lines_one st line :
  parse_lines st [line] =
  match snd (step st line) with Some m => [m] | None => [] end.
Proof. simpl. destruct (step st line) as [st' [m|]]; reflexivity. Qed.

Lemma fields_with_state r : fields (with_state r) = r.
Proof. unfold with_state. destruct (classify (status r)). reflexivity. Qed.

Lemma with_state_classify r :
  (state (with_state r), borrower (with_state r)) = classify (status r).
Proof. unfold with_state. destruct (classify (status r)). reflexivity. Qed.

Lemma parse_row_some st line m :
  parse_row st line = Some m -> exists r, m = with_state r /\ status r <> [].
Proof.
  unfold parse_row. cbv zeta.
  destruct (skip_section (current_section st)); [discriminate|].
  destruct (no_column_sep line); [discriminate|].
  destruct (rule_line line); [discriminate|].
  destruct (header_row line); [discriminate|].
  destruct (List.length (row_parts line) <? 6)%nat eqn:H6; [discriminate|].
  destruct (is_cluster_table st && (10 <=? List.length (row_parts line)))%nat
    eqn:Hc.
  - apply andb_true_iff in Hc as [_ Hc]. apply Nat.leb_le in Hc.
    cbv beta iota.
    destruct (is_empty _); [discriminate|].
    destruct (str_eqb _ _); [discriminate|].
    destruct (_ && _); [discriminate|].
    intros H; injection H as <-.
    eexists; split; [reflexivity|]. simpl.
    apply nth_part_nonempty. unfold row_parts in Hc. lia.
  - destruct (negb (is_cluster_table st) &&
              (6 <=? List.length (row_parts line)))%nat; [|discriminate].
    apply Nat.ltb_ge in H6.
    cbv beta iota.
    destruct (is_empty _); [discriminate|].
    destruct (str_eqb _ _); [discriminate|].
    destruct (_ && _); [discriminate|].
    intros H; injection H as <-.
    eexists; split; [reflexivity|]. simpl.
    apply nth_part_nonempty. unfold row_parts in H6. lia.
Qed.

Lemma parse_lines_in lines : forall st m,
  In m (parse_lines st lines) -> exists r, m = with_state r /\ status r <> [].
Proof.
  induction lines as [|l lines IH]; intros st m H; simpl in H; [destruct H|].
  destruct (step st l) as [st' o] eqn:E.
  assert (Ho : snd (step st l) = o) by (rewrite E; reflexivity).
  rewrite step_snd in Ho.
  destruct o as [m'|].
  - destruct H as [<-|H]; [|exact (IH _ _ H)].
    destruct (section_header l); [discriminate|].
    exact (parse_row_some _ _ _ Ho).
  - exact (IH _ _ H).
Qed.

Lemma parse_machine_table_in output m :
  In m (parse_machine_table output) ->
  exists r, m = with_state r /\ status r <> [].
Proof. apply parse_lines_in. Qed.

End Parser.

Section Status.

Lemma lower_char_paren c : (40 =? lower_char c) = (40 =? c).
Proof.
  unfold lower_char.
  destruct ((65 <=? c) && (c <=? 90)) eqn:E; [|reflexivity].
  apply andb_true_iff in E as [E1 E2].
  apply Z.leb_le in E1; apply Z.leb_le in E2.
  rewrite (proj2 (Z.eqb_neq 40 (c + 32))), (proj2 (Z.eqb_neq 40 c))
    by lia.
  reflexivity.
Qed.

Lemma contains_paren_lower t : contains (s "(") (lower t) = contains (s "(") t.
Proof.
  change (s "(") with [40].
  unfold lower in *.
  induction t as [|c t IH]; [reflexivity|].
  cbn [map contains is_prefix]. rewrite lower_char_paren, IH. reflexivity.
Qed.

Lemma classify_expected st :
  fst (classify st) = expected_state st /\
  snd (classify st) =
    match expected_state st with
    | borrowed => Some (expected_borrower st)
    | _ => None
    end.
Proof.
  unfold classify, expected_state, expected_borrower, ci_contains.
  rewrite contains_paren_lower.
  destruct (contains (s "available") (lower st)),
    (contains (s "no ping") (lower st)), (contains (s "no ssh") (lower st)),
    (contains (s "no cheetah") (lower st)), (contains (s "deploy") (lower st)),
    (contains (s "(") st);
    cbn [andb negb fst snd]; split; try reflexivity;
    destruct (strip (replace st (s "(deploy)") [])); reflexivity.
Qed.

Lemma expected_borrower_nonempty st : st <> [] -> expected_borrower st <> [].
Proof.
  unfold expected_borrower. intros H.
  destruct (strip (replace st (s "(deploy)") [])); [exact H | discriminate].
Qed.

End Status.

(** C1: every record of [parse_machine_table] has the state the
    case-insensitive priority chain gives for its status (available, then
    "no ping", "no ssh", "no cheetah", then "deploy" without "("), and a
    borrowed record has as borrower the status with "(deploy)" removed and
    trimmed, or the raw status when that is empty; in particular the
    status "(deploy)" gives state borrowed with borrower "(deploy)". *)
Theorem parse_machine_table_state_priority :
  (forall output m, In m (parse_machine_table output) ->
     state m = expected_state (status (fields m)) /\
     (state m = borrowed ->
      borrower m = Some (expected_borrower (status (fields m))))) /\
  classify (s "(deploy)") = (borrowed, Some (s "(deploy)")).
Proof.
  split; [|reflexivity].
  intros output m Hin.
  destruct (parse_machine_table_in output m Hin) as (r & -> & _).
  rewrite fields_with_state.
  pose proof (with_state_classify r) as E.
  destruct (classify_expected (status r)) as [E1 E2].
  destruct (classify (status r)) as [st b].
  injection E as -> ->. simpl in E1, E2. subst st b.
  split; [reflexivity|].
  intros ->. reflexivity.
Qed.


Lemma parse_machine_table_state_priority_witness :
  let m := nth 0 (parse_machine_table sample_output) (with_state (standalone_row [])) in
  In m (parse_machine_table sample_output) /\
  state m = expected_state (status (fields m)) /\
  (state m = borrowed ->
   borrower m = Some (expected_borrower (status (fields m)))).
Proof.
  cbv zeta.
  assert (Hin : In (nth 0 (parse_machine_table sample_output)
                     (with_state (standalone_row [])))
                  (parse_machine_table sample_output))
    by (vm_compute; left; reflexivity).
  split; [exact Hin|].
  exact (proj1 parse_machine_table_state_priority sample_output _ Hin).
Defined.

(** C9: in every record of [parse_machine_table] the borrower is a
    non-empty string when the state is borrowed, and [None] otherwise. *)
Theorem parse_machine_table_borrower_only_when_borrowed :
  forall output m, In m (parse_machine_table output) ->
  (state m = borrowed -> exists b, borrower m = Some b /\ b <> []) /\
  (state m <> borrowed -> borrower m = None).
Proof.
  intros output m Hin.
  destruct (parse_machine_table_in output m Hin) as (r & -> & Hne).
  pose proof (with_state_classify r) as E.
  destruct (classify_expected (status r)) as [E1 E2].
  destruct (classify (status r)) as [st b].
  injection E as -> ->. simpl in E1, E2. subst st b.
  destruct (expected_state (status r)); split; intros H; try congruence;
    eauto using expected_borrower_nonempty.
Qed.

Lemma parse_machine_table_borrower_only_when_borrowed_witness :
  let m := nth 0 (parse_machine_table sample_output) (with_state (standalone_row [])) in
  In m (parse_machine_table sample_output) /\
  (state m = borrowed -> exists b, borrower m = Some b /\ b <> []) /\
  (state m <> borrowed -> borrower m = None).
Proof.
  cbv zeta.
  assert (Hin : In (nth 0 (parse_machine_table sample_output)
                     (with_state (standalone_row [])))
                  (parse_machine_table sample_output))
    by (vm_compute; left; reflexivity).
  split; [exact Hin|].
  exact (parse_machine_table_borrower_only_when_borrowed sample_output _ Hin).
Defined.

Section Sections.

Lemma parse_row_skipped st line :
  skip_section (current_section st) = true -> parse_row st line = None.
Proof. intros H. unfold parse_row. rewrite H. reflexivity. Qed.

Lemma parse_row_some_section st line m :
  parse_row st line = Some m ->
  current_section st = Some standalone \/
  exists id, current_section st = Some (cluster_ id).
Proof.
  unfold parse_row.
  destruct (current_section st) as [[| id | |]|]; simpl; eauto;
    discriminate.
Qed.

Lemma header_row_name line p :
  header_row line = false -> In p (row_parts line) ->
  str_eqb p (s "wbox_name") = false.
Proof.
  intros Hh Hin. unfold str_eqb.
  destruct (list_eq_dec Z.eq_dec p (s "wbox_name")) as [->|]; [|reflexivity].
  destruct (parts_infix _ _ _ Hin) as (u & v & Hl).
  unfold header_row in Hh. rewrite Hl, contains_infix in Hh. discriminate.
Qed.

Lemma row_part_nonempty line i :
  (i < List.length (row_parts line))%nat -> is_empty (nth i (row_parts line) []) = false.
Proof.
  intros H. pose proof (nth_part_nonempty SEP_V line i H) as Hn.
  unfold row_parts in *.
  destruct (nth i (filter (fun p => negb (is_empty p))
                    (map strip (split line SEP_V))) []);
    [contradiction | reflexivity].
Qed.

End Sections.

(** C2: a line met while the current section is [None] (no section
    marker seen yet), [ixia] or [summary] adds no record: the records of
    the whole text are those of the lines before it followed by those of
    the lines after it.  Conversely, a line that adds a record is met in
    the standalone section or in a cluster section. *)
Theorem lines_outside_sections_yield_nothing :
  (forall output prev line rest,
     split (strip_ansi output) NL = prev ++ line :: rest ->
     (current_section (run_state prev) = None \/
      current_section (run_state prev) = Some ixia \/
      current_section (run_state prev) = Some summary_sec) ->
     parse_machine_table output =
     parse_lines init_state prev ++
     parse_lines (run_state (prev ++ [line])) rest) /\
  (forall prev line m,
     snd (step (run_state prev) line) = Some m ->
     current_section (run_state prev) = Some standalone \/
     exists id, current_section (run_state prev) = Some (cluster_ id)).
Proof.
  split.
  - intros output prev line rest Hl Hsec.
    unfold parse_machine_table. rewrite Hl, parse_lines_app, run_state_app.
    fold (run_state prev). f_equal.
    assert (Hn : snd (step (run_state prev) line) = None).
    { rewrite step_snd. destruct (section_header line); [reflexivity|].
      apply parse_row_skipped.
      destruct Hsec as [->|[->| ->]]; reflexivity. }
    simpl. destruct (step (run_state prev) line) as [st' o].
    simpl in Hn. subst o. reflexivity.
  - intros prev line m H. rewrite step_snd in H.
    destruct (section_header line); [discriminate|].
    exact (parse_row_some_section _ _ _ H).
Qed.

Lemma lines_outside_sections_yield_nothing_witness :
  let L := split (strip_ansi sample_output) NL in
  L = firstn 7 L ++ nth 7 L [] :: skipn 8 L /\
  current_section (run_state (firstn 7 L)) = Some ixia /\
  parse_machine_table sample_output =
  parse_lines init_state (firstn 7 L) ++
  parse_lines (run_state (firstn 7 L ++ [nth 7 L []])) (skipn 8 L).
Proof.
  cbv zeta.
  assert (HL : split (strip_ansi sample_output) NL =
               firstn 7 (split (strip_ansi sample_output) NL) ++
               nth 7 (split (strip_ansi sample_output) NL) [] ::
               skipn 8 (split (strip_ansi sample_output) NL))
    by (vm_compute; reflexivity).
  assert (Hs : current_section
                 (run_state (firstn 7 (split (strip_ansi sample_output) NL)))
               = Some ixia) by (vm_compute; reflexivity).
  split; [exact HL|]. split; [exact Hs|].
  apply (proj1 lines_outside_sections_yield_nothing _ _ _ _ HL).
  right; left; exact Hs.
Defined.

(** C10: while a cluster section is active, a line whose row splits into
    at least 6 but fewer than 10 non-empty fields adds no record. *)
Theorem cluster_short_rows_dropped :
  forall prev line id,
  current_section (run_state prev) = Some (cluster_ id) ->
  (6 <= List.length (row_parts line) < 10)%nat ->
  snd (step (run_state prev) line) = None.
Proof.
  intros prev line id Hsec Hlen.
  pose proof (run_state_inv prev) as Hinv.
  unfold section_inv in Hinv. rewrite Hsec in Hinv. destruct Hinv as [Hc _].
  rewrite step_snd. destruct (section_header line); [reflexivity|].
  unfold parse_row. cbv zeta.
  destruct (skip_section _); [reflexivity|].
  destruct (no_column_sep line); [reflexivity|].
  destruct (rule_line line); [reflexivity|].
  destruct (header_row line); [reflexivity|].
  rewrite Hc.
  rewrite (proj2 (Nat.ltb_ge _ _)) by lia.
  rewrite (proj2 (Nat.leb_gt 10 _)) by lia.
  reflexivity.
Qed.

Lemma cluster_short_rows_dropped_witness :
  let L := split (strip_ansi sample_output) NL in
  current_section (run_state (firstn 5 L)) = Some (cluster_ (s "2")) /\
  (6 <= List.length (row_parts (nth 5 L [])) < 10)%nat /\
  snd (step (run_state (firstn 5 L)) (nth 5 L [])) = None.
Proof.
  cbv zeta.
  assert (Hs : current_section
                 (run_state (firstn 5 (split (strip_ansi sample_output) NL)))
               = Some (cluster_ (s "2"))) by (vm_compute; reflexivity).
  assert (Hl : (6 <= List.length (row_parts
                  (nth 5 (split (strip_ansi sample_output) NL) [])) < 10)%nat)
    by (vm_compute; lia).
  split; [exact Hs|]. split; [exact Hl|].
  exact (cluster_short_rows_dropped _ _ _ Hs Hl).
Defined.

(** C3: for a line met in the standalone section or a cluster section
    that is no section header, has the column separator and is neither a
    rule line nor a column-header row: with fewer than 6 non-empty
    fields it adds no record; in the standalone section with at least 6
    fields it adds a record whose fields are positions 0..9 in order
    (empty when absent), without [nce_id] and with cluster [None]; in
    the cluster section [id] with at least 10 fields it adds a record
    with [nce_id] at position 0, the same ten fields at positions 1..10
    and cluster [Some id]. *)
Theorem active_row_column_mapping :
  forall prev line,
  let st := run_state prev in
  let parts := row_parts line in
  section_header line = false -> no_column_sep line = false ->
  rule_line line = false -> header_row line = false ->
  (current_section st = Some standalone \/
   exists id, current_section st = Some (cluster_ id)) ->
  ((List.length parts < 6)%nat -> snd (step st line) = None) /\
  (current_section st = Some standalone -> (6 <= List.length parts)%nat ->
   exists m, snd (step st line) = Some m /\
     fields m =
       {| nce_id := None;
          vendor := nth 0 parts []; type := nth 1 parts [];
          revision := nth 2 parts []; name := nth 3 parts [];
          baseos_version := nth 4 parts []; status := nth 5 parts [];
          borrow_uptime := nth 6 parts []; git_branch := nth 7 parts [];
          last_connection := nth 8 parts []; comment := nth 9 parts [];
          cluster := None |}) /\
  (forall id, current_section st = Some (cluster_ id) ->
   (10 <= List.length parts)%nat ->
   exists m, snd (step st line) = Some m /\
     fields m =
       {| nce_id := Some (nth 0 parts []);
          vendor := nth 1 parts []; type := nth 2 parts [];
          revision := nth 3 parts []; name := nth 4 parts [];
          baseos_version := nth 5 parts []; status := nth 6 parts [];
          borrow_uptime := nth 7 parts []; git_branch := nth 8 parts [];
          last_connection := nth 9 parts []; comment := nth 10 parts [];
          cluster := Some id |}).
Proof.
  intros prev line. cbv zeta.
  intros Hhd Hnc Hrl Hhr Hact.
  pose proof (run_state_inv prev) as Hinv. unfold section_inv in Hinv.
  assert (Hsk : skip_section (current_section (run_state prev)) = false)
    by (destruct Hact as [->|(id & ->)]; reflexivity).
  assert (Hrow : snd (step (run_state prev) line) =
    if (List.length (row_parts line) <? 6)%nat then None
    else
      match
        (if is_cluster_table (run_state prev) &&
            (10 <=? List.length (row_parts line))%nat
         then Some (cluster_row (row_parts line)
                      (current_cluster (run_state prev)))
         else if negb (is_cluster_table (run_state prev)) &&
                 (6 <=? List.length (row_parts line))%nat
         then Some (standalone_row (row_parts line))
         else None)
      with
      | None => None
      | Some r =>
          if is_empty (name r) then None
          else if str_eqb (name r) (s "wbox_name") then None
          else if is_empty (name r) && is_empty (vendor r) then None
          else Some (with_state r)
      end).
  { rewrite step_snd, Hhd. unfold parse_row.
    rewrite Hsk, Hnc, Hrl, Hhr. reflexivity. }
  split; [|split].
  - intros H6. rewrite Hrow, (proj2 (Nat.ltb_lt _ _) H6). reflexivity.
  - intros Hs H6. rewrite Hs in Hinv.
    rewrite Hrow, (proj2 (Nat.ltb_ge _ _) H6), Hinv.
    rewrite (proj2 (Nat.leb_le _ _) H6). cbv beta iota delta [andb negb name part standalone_row].
    assert (H3 : (3 < List.length (row_parts line))%nat) by lia.
    rewrite (row_part_nonempty _ _ H3).
    rewrite (header_row_name _ _ Hhr (nth_In _ _ H3)).
    eexists; split; [reflexivity|]. apply fields_with_state.
  - intros id Hs H10. rewrite Hs in Hinv. destruct Hinv as [Hc Hcl].
    rewrite Hrow, (proj2 (Nat.ltb_ge _ _)) by lia.
    rewrite Hc, (proj2 (Nat.leb_le _ _) H10), Hcl.
    cbv beta iota delta [andb negb name part cluster_row].
    assert (H4 : (4 < List.length (row_parts line))%nat) by lia.
    rewrite (row_part_nonempty _ _ H4).
    rewrite (header_row_name _ _ Hhr (nth_In _ _ H4)).
    eexists; split; [reflexivity|]. apply fields_with_state.
Qed.

Lemma active_row_column_mapping_witness :
  let L := split (strip_ansi sample_output) NL in
  let line := nth 4 L [] in
  section_header line = false /\ no_column_sep line = false /\
  rule_line line = false /\ header_row line = false /\
  current_section (run_state (firstn 4 L)) = Some (cluster_ (s "2")) /\
  (10 <= List.length (row_parts line))%nat /\
  exists m, snd (step (run_state (firstn 4 L)) line) = Some m /\
    cluster (fields m) = Some (s "2").
Proof.
  cbv zeta.
  set (L := split (strip_ansi sample_output) NL).
  assert (H1 : section_header (nth 4 L []) = false) by (vm_compute; reflexivity).
  assert (H2 : no_column_sep (nth 4 L []) = false) by (vm_compute; reflexivity).
  assert (H3 : rule_line (nth 4 L []) = false) by (vm_compute; reflexivity).
  assert (H4 : header_row (nth 4 L []) = false) by (vm_compute; reflexivity).
  assert (H5 : current_section (run_state (firstn 4 L)) = Some (cluster_ (s "2")))
    by (vm_compute; reflexivity).
  assert (H6 : (10 <= List.length (row_parts (nth 4 L [])))%nat)
    by (vm_compute; lia).
  do 6 (split; [assumption|]).
  destruct (active_row_column_mapping (firstn 4 L) (nth 4 L [])
              H1 H2 H3 H4 (or_intror (ex_intro _ _ H5)))
    as (_ & _ & Hcl).
  destruct (Hcl _ H5 H6) as (m & Hm & Hf).
  exists m. split; [exact Hm|]. rewrite Hf. reflexivity.
Defined.

Lemma sgr_free_no_sgr t : sgr_free t = true -> no_sgr t.
Proof.
  induction t as [|c t IH]; intros H pre m post Heq Hm.
  - destruct pre; [|discriminate].
    destruct Hm as (p & _ & ->). discriminate.
  - change (sgr_free (c :: t)) with
      (match sgr_len (c :: t) with Some _ => false | None => sgr_free t end)
      in H.
    destruct (sgr_len (c :: t)) eqn:E; [discriminate|].
    destruct pre as [|c' pre].
    + exact (sgr_len_none _ E m post Heq Hm).
    + injection Heq as -> Heq. exact (IH H pre m post Heq Hm).
Qed.

Lemma strip_ansi_removes_exactly_sgr_witness :
  no_sgr ([ESC] ++ s "[1x|") /\
  strip_ansi ([ESC] ++ s "[1x|") = [ESC] ++ s "[1x|".
Proof.
  assert (H : no_sgr ([ESC] ++ s "[1x|"))
    by (apply sgr_free_no_sgr; vm_compute; reflexivity).
  split; [exact H|].
  exact (proj2 strip_ansi_removes_exactly_sgr _ H).
Defined.

Section Summary.

Lemma summary_qualifies_line line v0 v1 v2 v3 :
  summary_qualifies line v0 v1 v2 v3 ->
  summary_line line =
  Some {| total := v0; free := v1; taken := v2; taken_not_used := v3 |}.
Proof.
  intros (H1 & H2 & (p0 & p1 & p2 & p3 & Hp & E0 & E1 & E2 & E3) &
          B0 & B1 & B2 & B3 & B4).
  unfold summary_line. rewrite H1, H2, Hp.
  cbn [andb negb List.length Nat.eqb parse_ints].
  rewrite E0, E1, E2, E3. cbn [forallb].
  rewrite (proj2 (Z.leb_le _ _) B0), (proj2 (Z.leb_le _ _) B1),
    (proj2 (Z.leb_le _ _) B2), (proj2 (Z.leb_le _ _) B3),
    (proj2 (Z.leb_le _ _) B4).
  reflexivity.
Qed.

Lemma summary_line_some line sm :
  summary_line line = Some sm ->
  summary_qualifies line (total sm) (free sm) (taken sm) (taken_not_used sm).
Proof.
  unfold summary_line.
  destruct (contains DBL_V line) eqn:H1; [|discriminate].
  destruct (contains DBL_H line) eqn:H2; [discriminate|].
  cbn [andb negb].
  destruct (summary_parts line) as [|p0 [|p1 [|p2 [|p3 [|p4 ps]]]]] eqn:Hp;
    try discriminate.
  cbn [List.length Nat.eqb parse_ints].
  destruct (parse_int p0) as [v0|] eqn:E0; [|discriminate].
  destruct (parse_int p1) as [v1|] eqn:E1; [|discriminate].
  destruct (parse_int p2) as [v2|] eqn:E2; [|discriminate].
  destruct (parse_int p3) as [v3|] eqn:E3; [|discriminate].
  cbn [forallb].
  destruct (0 <=? v0) eqn:B0, (0 <=? v1) eqn:B1, (0 <=? v2) eqn:B2,
    (0 <=? v3) eqn:B3, (v1 <=? v0) eqn:B4; try discriminate.
  intros H; injection H as <-. simpl.
  apply Z.leb_le in B0, B1, B2, B3, B4.
  repeat split; auto.
  exists p0, p1, p2, p3. auto.
Qed.

Lemma summary_line_none line : summary_line line = None -> summary_rejects line.
Proof.
  intros H v0 v1 v2 v3 Hq. rewrite (summary_qualifies_line _ _ _ _ _ Hq) in H.
  discriminate.
Qed.

Lemma summary_scan_spec lines :
  (exists pre line post v0 v1 v2 v3,
     lines = pre ++ line :: post /\ Forall summary_rejects pre /\
     summary_qualifies line v0 v1 v2 v3 /\
     summary_scan lines =
     {| total := v0; free := v1; taken := v2; taken_not_used := v3 |}) \/
  (Forall summary_rejects lines /\ summary_scan lines = zero_summary).
Proof.
  induction lines as [|l ls IH].
  - right. split; [constructor | reflexivity].
  - simpl. destruct (summary_line l) as [sm|] eqn:E.
    + left. exists [], l, ls, (total sm), (free sm), (taken sm),
        (taken_not_used sm).
      split; [reflexivity|]. split; [constructor|].
      split; [exact (summary_line_some _ _ E)|].
      destruct sm; reflexivity.
    + pose proof (summary_line_none _ E) as Hr.
      destruct IH as [(pre & line & post & v0 & v1 & v2 & v3 &
                       -> & Hpre & Hq & Hs)|(Hall & Hs)].
      * left. exists (l :: pre), line, post, v0, v1, v2, v3.
        split; [reflexivity|]. split; [constructor; assumption|].
        split; [exact Hq | exact Hs].
      * right. split; [constructor; assumption | exact Hs].
Qed.

End Summary.

(** C4: [parse_summary] returns the values of the first line of the
    cleaned text that has the double vertical bar, no double horizontal
    rule, exactly four non-empty fields all read by [int] as integers,
    all non-negative and the first at least the second, read as total,
    free, taken, taken_not_used; every earlier line fails one of these
    tests.  When no line passes, the result is all zeros. *)
Theorem parse_summary_first_qualifying :
  forall output,
  let lines := split (strip_ansi output) NL in
  (exists pre line post v0 v1 v2 v3,
     lines = pre ++ line :: post /\ Forall summary_rejects pre /\
     summary_qualifies line v0 v1 v2 v3 /\
     parse_summary output =
     {| total := v0; free := v1; taken := v2; taken_not_used := v3 |}) \/
  (Forall summary_rejects lines /\ parse_summary output = zero_summary).
Proof. intros output. apply summary_scan_spec. Qed.

(** C6: whatever the text, the summary holds four non-negative integers
    with [total >= free]. *)
Theorem parse_summary_bounds :
  forall output,
  let sm := parse_summary output in
  0 <= total sm /\ 0 <= free sm /\ 0 <= taken sm /\
  0 <= taken_not_used sm /\ free sm <= total sm.
Proof.
  intros output. cbv zeta. unfold parse_summary.
  destruct (summary_scan_spec (split (strip_ansi output) NL))
    as [(pre & line & post & v0 & v1 & v2 & v3 & _ & _ & Hq & ->)|(_ & ->)].
  - destruct Hq as (_ & _ & _ & B0 & B1 & B2 & B3 & B4). simpl. lia.
  - simpl. lia.
Qed.

(** C7: [get_machines] answers with an error exactly when the tool's exit
    code is non-zero and its stdout is empty; with a non-zero exit code
    and a non-empty stdout it returns the parsed records, the summary and
    the count of records. *)
Theorem get_machines_error_iff :
  forall r,
  ((exists e, get_machines r = machines_error e) <->
   (code r <> 0 /\ out r = [])) /\
  (code r <> 0 -> out r <> [] ->
   get_machines r =
   machines_ok (parse_machine_table (out r)) (parse_summary (out r))
     (List.length (parse_machine_table (out r)))).
Proof.
  intros r. unfold get_machines.
  destruct (code r =? 0) eqn:Hc; cbn [negb andb].
  - apply Z.eqb_eq in Hc. split; [|intros H; contradiction].
    split; [intros (e & He); discriminate | intros (H & _); contradiction].
  - apply Z.eqb_neq in Hc.
    destruct (out r) as [|c o] eqn:Ho; cbn [is_empty].
    + split; [|intros _ H; contradiction].
      split; [intros _; split; auto | intros _; eexists; reflexivity].
    + split; [|reflexivity].
      split; [intros (e & He); discriminate | intros (_ & H); discriminate].
Qed.

Lemma get_machines_error_iff_witness :
  let r := {| out := sample_output; err := []; code := 1 |} in
  code r <> 0 /\ out r <> [] /\
  get_machines r =
  machines_ok (parse_machine_table (out r)) (parse_summary (out r))
    (List.length (parse_machine_table (out r))).
Proof.
  cbv zeta.
  assert (H1 : code {| out := sample_output; err := []; code := 1 |} <> 0)
    by (simpl; lia).
  assert (H2 : out {| out := sample_output; err := []; code := 1 |} <> [])
    by (vm_compute; discriminate).
  split; [exact H1|]. split; [exact H2|].
  exact (proj2 (get_machines_error_iff _) H1 H2).
Defined.

(** C8: the borrow and free handlers succeed exactly when the exit code is
    0 or the lower-cased, ANSI-stripped stdout contains "borrowed"
    (borrow) or "freed" (free); otherwise they answer with a failure of
    status 400. *)
Theorem borrow_free_success_iff :
  forall machine_name r,
  (success (borrow_machine machine_name r) = true <->
   code r = 0 \/ contains (s "borrowed") (lower (strip_ansi (out r))) = true) /\
  (success (free_machine machine_name r) = true <->
   code r = 0 \/ contains (s "freed") (lower (strip_ansi (out r))) = true) /\
  (success (borrow_machine machine_name r) = false ->
   http_status (borrow_machine machine_name r) = 400) /\
  (success (free_machine machine_name r) = false ->
   http_status (free_machine machine_name r) = 400).
Proof.
  intros machine_name r.
  unfold borrow_machine, free_machine, action.
  destruct (code r =? 0) eqn:Hc;
    [apply Z.eqb_eq in Hc | apply Z.eqb_neq in Hc]; cbn [orb].
  - repeat split; auto; discriminate.
  - destruct (contains (s "borrowed") (lower (strip_ansi (out r)))),
      (contains (s "freed") (lower (strip_ansi (out r))));
      cbn [success http_status];
      repeat split; auto; try discriminate;
      intros [H|H]; try contradiction; discriminate.
Qed.

Lemma borrow_free_success_iff_witness :
  let r := {| out := [ESC] ++ s "[32mMachine wb1 Borrowed" ++ [ESC] ++ s "[0m";
              err := []; code := 1 |} in
  success (borrow_machine (s "wb1") r) = true /\
  (success (free_machine (s "wb1") r) = false ->
   http_status (free_machine (s "wb1") r) = 400).
Proof.
  cbv zeta.
  destruct (borrow_free_success_iff (s "wb1")
              {| out := [ESC] ++ s "[32mMachine wb1 Borrowed" ++ [ESC] ++ s "[0m";
                 err := []; code := 1 |}) as (Hb & _ & _ & Hf).
  split; [|exact Hf].
  apply Hb. right. vm_compute. reflexivity.
Defined.

(** The examples of the spec on the sample text: the records, their
    clusters and states, and the summary line [10 | 3 | 7 | 2] taken
    after the rejected [3 | 10 | 1 | 1]. *)
Example sample_records :
  map (fun m => (name (fields m), cluster (fields m), state m, borrower m))
      (parse_machine_table sample_output) =
  [(s "wb1", None, borrowed, Some (s "john"));
   (s "wb2", None, available, None);
   (s "wb3", Some (s "2"), borrowed, Some (s "(deploy)"))].
Proof. vm_compute. reflexivity. Qed.

Example sample_summary :
  parse_summary sample_output =
  {| total := 10; free := 3; taken := 7; taken_not_used := 2 |}.
Proof. vm_compute. reflexivity. Qed.

(** [\d] and [int] take every Unicode decimal digit: "Cluster " and
    U+0663 (ARABIC-INDIC DIGIT THREE) opens a cluster section, and
    "Cluster 1" and U+0663 records the two-digit id; a summary value
    written as U+FF13 (FULLWIDTH DIGIT THREE) is read as 3; [int] refuses
    more than 4300 digits. *)
Example unicode_digits :
  map (fun m => (name (fields m), cluster (fields m)))
    (parse_machine_table (s "Cluster " ++ [1635] ++ NL ++ cluster_row_line)) =
  [(s "wbD", Some [1635])] /\
  map (fun m => cluster (fields m))
    (parse_machine_table (s "Cluster 1" ++ [1635] ++ NL ++ cluster_row_line)) =
  [Some [49; 1635]] /\
  parse_summary (DBL_V ++ s " 10 " ++ DBL_V ++ s " " ++ [65299] ++ s " " ++
                 DBL_V ++ s " 7 " ++ DBL_V ++ s " 2 " ++ DBL_V) =
  {| total := 10; free := 3; taken := 7; taken_not_used := 2 |} /\
  parse_int (repeat 49 4300) <> None /\ parse_int (repeat 49 4301) = None.
Proof.
  split; [vm_compute; reflexivity|].
  split; [vm_compute; reflexivity|]. split; [vm_compute; reflexivity|].
  split; [vm_compute; discriminate | vm_compute; reflexivity].
Qed.

Example classify_deploy :
  classify (s "deploy") = (deployed, None) /\
  classify (s "Available") = (available, None).
Proof. split; reflexivity. Qed.

Section Lines.

Lemma split_go_skip sep k cur t :
  split_go sep k cur t = split_go sep O cur (skipn k t).
Proof.
  revert k; induction t as [|c t IH]; intros [|k]; simpl; auto.
Qed.

Lemma split_go_not_nil sep k cur t : split_go sep k cur t <> [].
Proof.
  revert k cur; induction t as [|c t IH]; intros [|k] cur; simpl;
    try discriminate; auto.
  destruct (is_prefix sep (c :: t)); [discriminate | auto].
Qed.

Lemma join_cons sep x l : l <> [] -> join sep (x :: l) = x ++ sep ++ join sep l.
Proof. destruct l; [contradiction | reflexivity]. Qed.

Lemma split_go_join sep (Hsep : sep <> []) t : forall cur,
  join sep (split_go sep O cur t) = rev cur ++ t.
Proof.
  induction t as [t IH] using (well_founded_induction
    (Wf_nat.well_founded_ltof _ (@List.length Z))).
  unfold Wf_nat.ltof in IH.
  intros cur. destruct t as [|c t].
  - simpl. rewrite app_nil_r. reflexivity.
  - simpl. destruct (is_prefix sep (c :: t)) eqn:Hp.
    + apply is_prefix_true in Hp as (r & Hr).
      destruct sep as [|c0 sep']; [contradiction|].
      injection Hr as -> Ht. subst t.
      rewrite split_go_skip. simpl (pred _).
      rewrite skipn_app, skipn_all, Nat.sub_diag. cbn [app skipn].
      rewrite join_cons by apply split_go_not_nil.
      rewrite IH; [reflexivity|]. simpl. rewrite length_app. lia.
    + rewrite IH by (simpl; lia). simpl. rewrite <- app_assoc. reflexivity.
Qed.

Lemma sgr_no_nl m : is_sgr m -> ~ In 10 m.
Proof.
  intros (p & Hp & ->) Hin. simpl in Hin.
  destruct Hin as [H|[H|H]]; [discriminate|discriminate|].
  apply in_app_or in H as [H|[H|[]]]; [|discriminate].
  rewrite Forall_forall in Hp. specialize (Hp 10 H). discriminate.
Qed.

Lemma sgr_before_nl m r a b :
  is_sgr m -> m ++ r = a ++ 10 :: b -> exists a', a = m ++ a'.
Proof.
  intros Hm Heq. apply app_eq_app in Heq as (l & [[Hml Hl]|[Ham Hr]]).
  - destruct l as [|x l].
    + exists []. rewrite app_nil_r in Hml. rewrite Hml, app_nil_r. reflexivity.
    + injection Hl as <- _. exfalso. apply (sgr_no_nl m Hm).
      rewrite Hml. apply in_or_app. right. left. reflexivity.
  - exists l. exact Ham.
Qed.

Lemma strip_ansi_app_nl a b :
  strip_ansi (a ++ 10 :: b) = strip_ansi a ++ 10 :: strip_ansi b.
Proof.
  induction a as [a IH] using (well_founded_induction
    (Wf_nat.well_founded_ltof _ (@List.length Z))).
  unfold Wf_nat.ltof in IH.
  destruct a as [|c a].
  - simpl. apply strip_ansi_keep. destruct b; reflexivity.
  - destruct (sgr_len ((c :: a) ++ 10 :: b)) as [n|] eqn:E.
    + destruct (sgr_len_some _ _ E) as (m & r & Hm & Heq & _).
      destruct (sgr_before_nl m r (c :: a) b Hm (eq_sym Heq)) as (a' & Ha).
      rewrite Ha, <- app_assoc, (strip_ansi_drop m (a' ++ 10 :: b) Hm),
        (strip_ansi_drop m a' Hm).
      apply IH. rewrite Ha, length_app.
      destruct (is_sgr_not_nil m Hm) as (? & ? & ->). simpl. lia.
    + assert (E' : sgr_len (c :: a) = None).
      { destruct (sgr_len (c :: a)) as [n|] eqn:E'; [|reflexivity].
        destruct (sgr_len_some _ _ E') as (m & r & Hm & Heq & _).
        rewrite Heq, <- app_assoc, sgr_len_app in E by exact Hm.
        discriminate. }
      simpl in E |- *. rewrite (strip_ansi_keep c (a ++ 10 :: b) E).
      rewrite (strip_ansi_keep c a E'). rewrite IH by (simpl; lia).
      reflexivity.
Qed.

Lemma ansi_removed_incl t o : ansi_removed t o -> incl o t.
Proof.
  induction 1 as [|m rest o _ _ IH|c rest o _ _ IH].
  - apply incl_refl.
  - apply incl_appr. exact IH.
  - apply incl_cons; [left; reflexivity|]. apply incl_tl. exact IH.
Qed.

Lemma strip_ansi_incl t : incl (strip_ansi t) t.
Proof. apply ansi_removed_incl, ansi_removed_strip_ansi. Qed.

Lemma split_go_nl_app a b : forall cur,
  split_go NL O cur (a ++ 10 :: b) =
  split_go NL O cur a ++ split_go NL O [] b.
Proof.
  induction a as [|c a IH]; intros cur.
  - reflexivity.
  - cbn [app split_go is_prefix NL]. rewrite andb_true_r.
    destruct (10 =? c).
    + cbn [List.length pred]. rewrite IH. reflexivity.
    + apply IH.
Qed.

Lemma split_nl_app a b : split (a ++ 10 :: b) NL = split a NL ++ split b NL.
Proof. apply split_go_nl_app. Qed.

Lemma split_go_no_nl a : forall cur,
  ~ In 10 a -> split_go NL O cur a = [rev cur ++ a].
Proof.
  induction a as [|c a IH]; intros cur Hn.
  - simpl. rewrite app_nil_r. reflexivity.
  - cbn [split_go is_prefix NL]. rewrite andb_true_r.
    destruct (Z.eqb_spec 10 c) as [<-|_]; [exfalso; apply Hn; left; reflexivity|].
    rewrite IH by (intros H; apply Hn; right; exact H).
    simpl. rewrite <- app_assoc. reflexivity.
Qed.

Lemma split_no_nl a : ~ In 10 a -> split a NL = [a].
Proof. intros H. exact (split_go_no_nl a [] H). Qed.

Lemma first_nl t : In 10 t -> exists a b, t = a ++ 10 :: b /\ ~ In 10 a.
Proof.
  induction t as [|c t IH]; intros H; [destruct H|].
  destruct (Z.eq_dec c 10) as [->|Hc].
  - exists [], t. split; [reflexivity | intros []].
  - destruct H as [H|H]; [contradiction|].
    destruct (IH H) as (a & b & -> & Ha).
    exists (c :: a), b. split; [reflexivity|].
    intros [H'|H']; [congruence | contradiction].
Qed.

Lemma split_strip_ansi t :
  split (strip_ansi t) NL = map strip_ansi (split t NL).
Proof.
  induction t as [t IH] using (well_founded_induction
    (Wf_nat.well_founded_ltof _ (@List.length Z))).
  unfold Wf_nat.ltof in IH.
  destruct (in_dec Z.eq_dec 10 t) as [Hin|Hn].
  - destruct (first_nl t Hin) as (a & b & -> & Ha).
    rewrite strip_ansi_app_nl, !split_nl_app, map_app.
    rewrite (IH b) by (rewrite length_app; simpl; lia).
    rewrite (split_no_nl a Ha), (split_no_nl (strip_ansi a)); [reflexivity|].
    intros H. apply Ha. exact (strip_ansi_incl a 10 H).
  - rewrite (split_no_nl t Hn), (split_no_nl (strip_ansi t)); [reflexivity|].
    intros H. apply Hn. exact (strip_ansi_incl t 10 H).
Qed.

End Lines.

(** X1: for a non-empty separator, joining the pieces of [t.split(sep)]
    with [sep] gives back [t]. *)
Theorem split_join_roundtrip :
  forall t sep, sep <> [] -> join sep (split t sep) = t.
Proof. intros t sep H. exact (split_go_join sep H t []). Qed.

Lemma split_join_roundtrip_witness :
  SEP_V <> [] /\
  join SEP_V (split (row_line SEP_V ["a"; "b"]%string) SEP_V) =
  row_line SEP_V ["a"; "b"]%string.
Proof.
  assert (H : SEP_V <> []) by discriminate.
  split; [exact H|]. exact (split_join_roundtrip _ _ H).
Defined.

(** X2: [strip_ansi] works line by line: no escape sequence it removes
    spans a line break, so cleaning two texts joined by a newline is
    joining the two cleaned texts. *)
Theorem strip_ansi_line_local :
  forall a b, strip_ansi (a ++ NL ++ b) = strip_ansi a ++ NL ++ strip_ansi b.
Proof. intros a b. apply strip_ansi_app_nl. Qed.

(** X3: both parsers read the raw output's lines, each cleaned of its
    own escape sequences: the lines of the cleaned text are the cleaned
    lines of the text. *)
Theorem parsers_read_cleaned_raw_lines :
  forall output,
  split (strip_ansi output) NL = map strip_ansi (split output NL) /\
  parse_machine_table output =
  parse_lines init_state (map strip_ansi (split output NL)) /\
  parse_summary output = summary_scan (map strip_ansi (split output NL)).
Proof.
  intros output. unfold parse_machine_table, parse_summary.
  rewrite split_strip_ansi. auto.
Qed.

Lemma summary_scan_app_rejects l1 l2 :
  Forall summary_rejects l1 -> summary_scan (l1 ++ l2) = summary_scan l2.
Proof.
  induction 1 as [|l l1 Hr _ IH]; [reflexivity|].
  simpl. destruct (summary_line l) as [sm|] eqn:E; [|exact IH].
  destruct (Hr _ _ _ _ (summary_line_some _ _ E)).
Qed.

Lemma summary_scan_app_qualifies l1 l2 line v0 v1 v2 v3 :
  In line l1 -> summary_qualifies line v0 v1 v2 v3 ->
  summary_scan (l1 ++ l2) = summary_scan l1.
Proof.
  intros Hin Hq. induction l1 as [|l l1 IH]; [destruct Hin|].
  simpl. destruct (summary_line l) as [sm|] eqn:E; [reflexivity|].
  destruct Hin as [->|Hin]; [|exact (IH Hin)].
  rewrite (summary_qualifies_line _ _ _ _ _ Hq) in E. discriminate.
Qed.

(** X4: appending text after a newline keeps the records of the text
    before it, in front; the summary is the earlier text's when one of its
    lines qualifies, and the later text's when none does. *)
Theorem parse_append_after_newline :
  forall a b,
  let la := split (strip_ansi a) NL in
  parse_machine_table (a ++ NL ++ b) =
  parse_machine_table a ++
  parse_lines (run_state la) (split (strip_ansi b) NL) /\
  (Forall summary_rejects la -> parse_summary (a ++ NL ++ b) = parse_summary b) /\
  (forall line v0 v1 v2 v3, In line la -> summary_qualifies line v0 v1 v2 v3 ->
   parse_summary (a ++ NL ++ b) = parse_summary a).
Proof.
  intros a b. cbv zeta.
  unfold parse_machine_table, parse_summary.
  change (a ++ NL ++ b) with (a ++ 10 :: b).
  rewrite strip_ansi_app_nl, split_nl_app.
  split; [|split].
  - apply parse_lines_app.
  - apply summary_scan_app_rejects.
  - intros line v0 v1 v2 v3. apply summary_scan_app_qualifies.
Qed.

Lemma parse_append_after_newline_witness :
  let a := row_line DBL_V ["10"; "3"; "7"; "2"]%string in
  let b := sample_output in
  In a (split (strip_ansi a) NL) /\ summary_qualifies a 10 3 7 2 /\
  parse_summary (a ++ NL ++ b) = parse_summary a.
Proof.
  cbv zeta.
  set (a := row_line DBL_V ["10"; "3"; "7"; "2"]%string).
  assert (Hin : In a (split (strip_ansi a) NL)) by (vm_compute; left; reflexivity).
  assert (Hq : summary_qualifies a 10 3 7 2).
  { unfold summary_qualifies.
    split; [vm_compute; reflexivity|]. split; [vm_compute; reflexivity|].
    split; [|lia].
    exists (s "10"), (s "3"), (s "7"), (s "2").
    split; [vm_compute; reflexivity|]. repeat split; reflexivity. }
  split; [exact Hin|]. split; [exact Hq|].
  exact (proj2 (proj2 (parse_append_after_newline a sample_output))
           _ _ _ _ _ Hin Hq).
Defined.

Lemma parse_lines_no_sep lines : forall st,
  (forall l, In l lines -> contains SEP_V l = false) ->
  parse_lines st lines = [].
Proof.
  induction lines as [|l lines IH]; intros st H; [reflexivity|].
  simpl. destruct (step st l) as [st' o] eqn:E.
  assert (Ho : o = None).
  { assert (Hs : snd (step st l) = o) by (rewrite E; reflexivity).
    rewrite step_snd in Hs. destruct (section_header l); [congruence|].
    unfold parse_row, no_column_sep in Hs.
    rewrite (H l (or_introl eq_refl)) in Hs.
    destruct (skip_section _); cbn [negb] in Hs; congruence. }
  subst o. apply IH. intros l' Hl'. apply H. right. exact Hl'.
Qed.

(** X5: when the cleaned output has no column separator anywhere,
    [parse_machine_table] returns no record. *)
Theorem no_separator_no_records :
  forall output, contains SEP_V (strip_ansi output) = false ->
  parse_machine_table output = [].
Proof.
  intros output H. apply parse_lines_no_sep.
  intros l Hl. destruct (contains SEP_V l) eqn:E; [|reflexivity].
  apply contains_true in E as (u & v & ->).
  destruct (split_infix _ _ _ Hl) as (u' & v' & Ho).
  rewrite Ho, <- !app_assoc, app_assoc, contains_infix in H. discriminate.
Qed.

Lemma no_separator_no_records_witness :
  contains SEP_V (strip_ansi (s "Stand alone" ++ NL ++ s "dell x86 r1 wb1")) = false /\
  parse_machine_table (s "Stand alone" ++ NL ++ s "dell x86 r1 wb1") = [].
Proof.
  assert (H : contains SEP_V (strip_ansi (s "Stand alone" ++ NL ++ s "dell x86 r1 wb1"))
              = false) by (vm_compute; reflexivity).
  split; [exact H|]. exact (no_separator_no_records _ H).
Defined.

Section RecordShape.

Lemma takewhile_all f t : Forall (fun c => f c = true) (takewhile f t).
Proof.
  induction t as [|c t IH]; simpl; [constructor|].
  destruct (f c) eqn:E; constructor; auto.
Qed.

Lemma cluster_search_digits t d :
  cluster_search t = Some d -> d <> [] /\ Forall (fun c => is_digit c = true) d.
Proof.
  induction t as [|c t IH]; simpl.
  - unfold cluster_at. destruct (is_prefix (s "Cluster") []); [|discriminate].
    simpl. discriminate.
  - destruct (cluster_at (c :: t)) as [d'|] eqn:E; [|exact IH].
    intros H; injection H as <-. unfold cluster_at in E.
    destruct (is_prefix (s "Cluster") (c :: t)); [|discriminate].
    destruct (is_empty (takewhile py_isspace (skipn 7 (c :: t))));
      [discriminate|].
    destruct (takewhile is_digit (dropwhile py_isspace (skipn 7 (c :: t))))
      as [|x l] eqn:Ed; [discriminate|].
    injection E as <-. split; [discriminate|].
    rewrite <- Ed. apply takewhile_all.
Qed.

Lemma step_ids_ok st line : cluster_ids_ok st -> cluster_ids_ok (fst (step st line)).
Proof.
  intros H. unfold step.
  destruct (contains (s "Stand alone") line); [intros id Hid; discriminate|].
  destruct (contains (s "Cluster") line && negb (contains SEP_H line)).
  - destruct (cluster_search line) as [d|] eqn:E; [|exact H].
    intros id Hid. injection Hid as <-. exact (cluster_search_digits _ _ E).
  - destruct (contains (s "DP IXIAs") line); [exact H|].
    destruct (contains (s "Total") line && contains (s "Free") line &&
              contains (s "Taken") line); exact H.
Qed.

Lemma nth_part_or_nil (parts : list pystr) i :
  part parts i = [] \/ In (part parts i) parts.
Proof.
  unfold part. destruct (nth_in_or_default i parts []) as [H|H]; auto.
Qed.

Lemma contains_sub kw f line :
  contains kw f = true -> (exists u v, line = u ++ f ++ v) ->
  contains kw line = true.
Proof.
  intros Hf (u & v & ->). apply contains_true in Hf as (u' & v' & ->).
  apply contains_true. exists (u ++ u'), (v' ++ v).
  rewrite <- !app_assoc. reflexivity.
Qed.

(** What a line that adds a record, and the record, look like. *)
Lemma step_some_shape st line m :
  section_inv st -> cluster_ids_ok st -> snd (step st line) = Some m ->
  exists r, m = with_state r /\
    section_header line = false /\ rule_line line = false /\
    header_row line = false /\
    name r <> [] /\ name r <> s "wbox_name" /\
    (forall f, In f (row_texts r) -> f = [] \/ In f (row_parts line)) /\
    ((nce_id r = None /\ cluster r = None) \/
     (exists n id, nce_id r = Some n /\ cluster r = Some id /\
        id <> [] /\ Forall (fun c => is_digit c = true) id)).
Proof.
  intros Hinv Hids H. rewrite step_snd in H.
  destruct (section_header line) eqn:Hsh; [discriminate|].
  unfold parse_row in H. cbv zeta in H.
  destruct (skip_section (current_section st)) eqn:Hsk; [discriminate|].
  destruct (no_column_sep line); [discriminate|].
  destruct (rule_line line); [discriminate|].
  destruct (header_row line); [discriminate|].
  destruct (List.length (row_parts line) <? 6)%nat; [discriminate|].
  destruct (is_cluster_table st && (10 <=? List.length (row_parts line)))%nat
    eqn:Hc.
  - apply andb_true_iff in Hc as [Hc _].
    assert (Hid : exists id, current_cluster st = Some id).
    { unfold section_inv in Hinv.
      destruct (current_section st) as [[| id | |]|]; try discriminate.
      - congruence.
      - exists id. apply Hinv. }
    destruct Hid as (id & Hid).
    cbv beta iota in H.
    destruct (is_empty _) eqn:E1; [discriminate|].
    destruct (str_eqb _ _) eqn:E2; [discriminate|].
    destruct (_ && _); [discriminate|].
    injection H as <-.
    eexists; repeat (split; [reflexivity|]).
    split; [intros Hn; rewrite Hn in E1; discriminate|].
    split; [intros Hn; rewrite Hn in E2; discriminate|].
    split.
    + intros f Hf. unfold row_texts, cluster_row in Hf.
      cbn [nce_id vendor type revision name baseos_version status
           borrow_uptime git_branch last_connection comment app] in Hf.
      repeat (destruct Hf as [<-|Hf]; [apply nth_part_or_nil|]).
      destruct Hf.
    + right. exists (part (row_parts line) 0), id. simpl.
      rewrite Hid. split; [reflexivity|]. split; [reflexivity|].
      exact (Hids id Hid).
  - destruct (negb (is_cluster_table st) &&
              (6 <=? List.length (row_parts line)))%nat; [|discriminate].
    cbv beta iota in H.
    destruct (is_empty _) eqn:E1; [discriminate|].
    destruct (str_eqb _ _) eqn:E2; [discriminate|].
    destruct (_ && _); [discriminate|].
    injection H as <-.
    eexists; repeat (split; [reflexivity|]).
    split; [intros Hn; rewrite Hn in E1; discriminate|].
    split; [intros Hn; rewrite Hn in E2; discriminate|].
    split.
    + intros f Hf. unfold row_texts, standalone_row in Hf.
      cbn [nce_id vendor type revision name baseos_version status
           borrow_uptime git_branch last_connection comment app] in Hf.
      repeat (destruct Hf as [<-|Hf]; [apply nth_part_or_nil|]).
      destruct Hf.
    + left. split; reflexivity.
Qed.

Lemma parse_lines_shape lines : forall st m,
  section_inv st -> cluster_ids_ok st -> In m (parse_lines st lines) ->
  exists line st', In line lines /\ section_inv st' /\ cluster_ids_ok st' /\
    snd (step st' line) = Some m.
Proof.
  induction lines as [|l lines IH]; intros st m Hi Ho Hin; [destruct Hin|].
  simpl in Hin. destruct (step st l) as [st1 o] eqn:E.
  assert (Hst1 : st1 = fst (step st l)) by (rewrite E; reflexivity).
  assert (Hi1 : section_inv st1) by (rewrite Hst1; apply step_inv, Hi).
  assert (Ho1 : cluster_ids_ok st1) by (rewrite Hst1; apply step_ids_ok, Ho).
  destruct o as [m'|].
  - destruct Hin as [<-|Hin].
    + exists l, st. split; [left; reflexivity|].
      split; [exact Hi|]. split; [exact Ho|]. rewrite E. reflexivity.
    + destruct (IH _ _ Hi1 Ho1 Hin) as (line & st' & ? & ? & ? & ?).
      exists line, st'. split; [right; assumption|]. auto.
  - destruct (IH _ _ Hi1 Ho1 Hin) as (line & st' & ? & ? & ? & ?).
    exists line, st'. split; [right; assumption|]. auto.
Qed.

Lemma parse_machine_table_shape output m :
  In m (parse_machine_table output) ->
  exists line st, In line (split (strip_ansi output) NL) /\
    section_inv st /\ cluster_ids_ok st /\ snd (step st line) = Some m.
Proof.
  intros H. apply (parse_lines_shape _ init_state); auto.
  - exact I.
  - intros id Hid. discriminate.
Qed.

End RecordShape.

(** X6: a record carries a cluster exactly when it carries an [nce_id]
    (it comes from a cluster table), and its cluster id is a non-empty
    run of the digits [\d] matches. *)
Theorem record_cluster_iff_nce_id :
  forall output m, In m (parse_machine_table output) ->
  (nce_id (fields m) = None /\ cluster (fields m) = None) \/
  (exists n id, nce_id (fields m) = Some n /\ cluster (fields m) = Some id /\
     id <> [] /\ Forall (fun c => is_digit c = true) id).
Proof.
  intros output m Hin.
  destruct (parse_machine_table_shape output m Hin)
    as (line & st & _ & Hi & Ho & Hs).
  destruct (step_some_shape _ _ _ Hi Ho Hs)
    as (r & -> & _ & _ & _ & _ & _ & _ & Hc).
  rewrite fields_with_state. exact Hc.
Qed.

Lemma record_cluster_iff_nce_id_witness :
  let m := nth 2 (parse_machine_table sample_output) (with_state (standalone_row [])) in
  In m (parse_machine_table sample_output) /\
  ((nce_id (fields m) = None /\ cluster (fields m) = None) \/
   (exists n id, nce_id (fields m) = Some n /\ cluster (fields m) = Some id /\
      id <> [] /\ Forall (fun c => is_digit c = true) id)).
Proof.
  cbv zeta.
  assert (Hin : In (nth 2 (parse_machine_table sample_output)
                     (with_state (standalone_row [])))
                  (parse_machine_table sample_output))
    by (vm_compute; right; right; left; reflexivity).
  split; [exact Hin|]. exact (record_cluster_iff_nce_id _ _ Hin).
Defined.

(** X7: every record has a non-empty name other than "wbox_name", and
    none of its text fields contains "Cluster", "Stand alone",
    "DP IXIAs" or "wbox_name": a row mentioning one of these is taken as
    a section or column header and yields no record. *)
Theorem record_fields_free_of_markers :
  forall output m, In m (parse_machine_table output) ->
  name (fields m) <> [] /\ name (fields m) <> s "wbox_name" /\
  forall f, In f (row_texts (fields m)) ->
  contains (s "Cluster") f = false /\ contains (s "Stand alone") f = false /\
  contains (s "DP IXIAs") f = false /\ contains (s "wbox_name") f = false.
Proof.
  intros output m Hin.
  destruct (parse_machine_table_shape output m Hin)
    as (line & st & _ & Hi & Ho & Hs).
  destruct (step_some_shape _ _ _ Hi Ho Hs)
    as (r & -> & Hsh & Hrl & Hhr & Hn1 & Hn2 & Hf & _).
  rewrite fields_with_state.
  split; [exact Hn1|]. split; [exact Hn2|].
  unfold section_header in Hsh. unfold rule_line in Hrl.
  unfold header_row in Hhr.
  apply orb_false_iff in Hsh as [Hsh _].
  apply orb_false_iff in Hsh as [Hsh Hdp].
  apply orb_false_iff in Hsh as [Hst Hcl].
  apply orb_false_iff in Hrl as [Hrl _].
  apply orb_false_iff in Hrl as [Hrl _].
  apply orb_false_iff in Hrl as [Hrl _].
  apply orb_false_iff in Hrl as [Hh _].
  apply orb_false_iff in Hhr as [Hwb _].
  rewrite Hh, andb_true_r in Hcl.
  intros f Hin'.
  destruct (Hf f Hin') as [->|Hp]; [repeat split; reflexivity|].
  pose proof (parts_infix _ _ _ Hp) as Hinf.
  repeat split;
    (destruct (contains _ f) eqn:E; [|reflexivity]); exfalso;
    pose proof (contains_sub _ _ _ E Hinf); congruence.
Qed.

Lemma record_fields_free_of_markers_witness :
  let m := nth 0 (parse_machine_table sample_output) (with_state (standalone_row [])) in
  In m (parse_machine_table sample_output) /\
  name (fields m) <> [] /\ name (fields m) <> s "wbox_name".
Proof.
  cbv zeta.
  assert (Hin : In (nth 0 (parse_machine_table sample_output)
                     (with_state (standalone_row [])))
                  (parse_machine_table sample_output))
    by (vm_compute; left; reflexivity).
  split; [exact Hin|].
  destruct (record_fields_free_of_markers _ _ Hin) as (H1 & H2 & _).
  split; assumption.
Defined.

Section Handlers.

Lemma str_in_nil x : str_in x [] = false.
Proof. reflexivity. Qed.

Lemma action_failed_run verb fail_verb n e :
  verb <> [] ->
  action verb fail_verb n {| out := []; err := e; code := 1 |} =
  {| success := false; message := s "Failed to " ++ fail_verb ++ s " " ++ n;
     output := []; error := Some (strip_ansi e); http_status := 400 |}.
Proof.
  intros Hv. unfold action. cbn [out err code].
  replace (contains verb (lower (strip_ansi []))) with false; [reflexivity|].
  destruct verb; [congruence|]. reflexivity.
Qed.

End Handlers.

(** X8: when the tool times out or cannot be run, every handler reports
    a failure: the listing is an error carrying the message, borrowing
    and freeing fail with status 400 and no output, and the details are
    empty and unsuccessful. *)
Theorem failed_run_outcomes :
  forall o n, (o = timed_out \/ exists msg, o = raised msg) ->
  let r := run_pyborrow_result o in
  get_machines r = machines_error (s "Failed to fetch machines: " ++ err r) /\
  borrow_machine n r =
    {| success := false; message := s "Failed to borrow " ++ n;
       output := []; error := Some (strip_ansi (err r)); http_status := 400 |} /\
  free_machine n r =
    {| success := false; message := s "Failed to free " ++ n;
       output := []; error := Some (strip_ansi (err r)); http_status := 400 |} /\
  get_machine_details n r = {| d_name := n; details := []; d_success := false |}.
Proof.
  intros o n Ho. cbv zeta.
  assert (Hr : exists e, run_pyborrow_result o = {| out := []; err := e; code := 1 |}).
  { destruct Ho as [->|(msg & ->)]; eexists; reflexivity. }
  destruct Hr as (e & ->). cbn [err].
  split; [reflexivity|].
  split; [unfold borrow_machine; rewrite action_failed_run; [reflexivity|discriminate]|].
  split; [unfold free_machine; rewrite action_failed_run; [reflexivity|discriminate]|].
  reflexivity.
Qed.

Lemma failed_run_outcomes_witness :
  (timed_out = timed_out \/ exists msg, timed_out = raised msg) /\
  get_machine_details (s "wbox1") (run_pyborrow_result timed_out) =
    {| d_name := s "wbox1"; details := []; d_success := false |}.
Proof.
  assert (H : timed_out = timed_out \/ exists msg, timed_out = raised msg)
    by (left; reflexivity).
  split; [exact H|].
  exact (proj2 (proj2 (proj2 (failed_run_outcomes timed_out (s "wbox1") H)))).
Defined.

(** X9: with empty standard output the listing is an error exactly when
    the exit code is non-zero; with exit code 0 it is an empty, successful
    listing with an all-zero summary. *)
Theorem empty_output_listing :
  forall r, out r = [] ->
  get_machines r =
    if code r =? 0 then machines_ok [] zero_summary 0
    else machines_error (s "Failed to fetch machines: " ++ err r).
Proof.
  intros r Hr. unfold get_machines. rewrite Hr.
  destruct (code r =? 0); reflexivity.
Qed.

Lemma empty_output_listing_witness :
  out {| out := []; err := s "boom"; code := 0 |} = [] /\
  get_machines {| out := []; err := s "boom"; code := 0 |} =
    machines_ok [] zero_summary 0.
Proof.
  assert (H : out {| out := []; err := s "boom"; code := 0 |} = []) by reflexivity.
  split; [exact H|]. exact (empty_output_listing _ H).
Defined.

(** X10: the command line is the interpreter, the tool path and the
    arguments, followed by "-q" exactly when one of the arguments is
    "-b", "-f", "--borrow" or "--free" (an empty or missing argument list
    gives the bare command); in particular borrowing and freeing always
    run quietly. *)
Theorem pyborrow_command_shape :
  forall exe path,
  run_pyborrow_cmd exe path None = [exe; path] /\
  (forall args, run_pyborrow_cmd exe path (Some args) =
     [exe; path] ++ args ++
     (if str_in (s "-b") args || str_in (s "-f") args ||
         str_in (s "--borrow") args || str_in (s "--free") args
      then [s "-q"] else [])) /\
  (forall n, run_pyborrow_cmd exe path (Some (borrow_args n)) =
     [exe; path; s "-b"; n; s "-q"]) /\
  (forall n, run_pyborrow_cmd exe path (Some (free_args n)) =
     [exe; path; s "-f"; n; s "-q"]).
Proof.
  intros exe path. split; [reflexivity|].
  assert (Hgen : forall args, run_pyborrow_cmd exe path (Some args) =
     [exe; path] ++ args ++
     (if str_in (s "-b") args || str_in (s "-f") args ||
         str_in (s "--borrow") args || str_in (s "--free") args
      then [s "-q"] else [])).
  { intros [|a args]; [reflexivity|].
    unfold run_pyborrow_cmd. cbv beta iota. cbn [andb].
    destruct (_ || _);
      [rewrite <- app_assoc; reflexivity | rewrite app_nil_r; reflexivity]. }
  split; [exact Hgen|].
  split; intros n; rewrite Hgen; [reflexivity|].
  replace (str_in (s "-f") (free_args n)) with true by reflexivity.
  rewrite orb_true_r. reflexivity.
Qed.

(** X11: the answer to a borrow or free request is consistent: it
    succeeds exactly when its status is 200 and exactly when it carries
    no error; its output is the tool's standard output without colour
    codes, and a failure's error is the standard error without them. *)
Theorem action_response_consistent :
  forall n r, let a1 := borrow_machine n r in let a2 := free_machine n r in
  Forall (fun a =>
    (success a = true <-> http_status a = 200) /\
    (success a = true <-> error a = None) /\
    output a = strip_ansi (out r) /\
    (success a = false -> error a = Some (strip_ansi (err r)))) [a1; a2].
Proof.
  intros n r. cbv zeta. unfold borrow_machine, free_machine, action.
  repeat constructor;
    match goal with
    | |- context [if ?b then _ else _] => destruct b
    end; cbn; try split; intros; try reflexivity; try discriminate; assumption.
Qed.
